(** * node-webworker: the master side of [lib/webworker.js]

    A shallow embedding of the [WorkerMaster] singleton (registry of
    workers, handshake on new connections, steady-state dispatch, queueing
    of messages posted before the handshake) and of the [Worker]
    constructor, followed by the properties proved about them.

    Conventions of the embedding:
    - JavaScript values are the inductive [value]; numbers are restricted
      to integers ([Z]), which is what process ids and message types are.
    - The three registry objects [workers], [workerStreams] and
      [workerMsgQueue] are JavaScript objects used as maps: their keys are
      property keys, i.e. strings obtained with [ToString]. The program
      only uses the keys of pids and of [null], which [Object.prototype]
      does not define, so a property lookup is a lookup in the map.
    - Every function runs in the monad [M]: it reads and writes the host
      state, may throw, and records the externally visible calls it makes
      (socket writes, [s.end()], [sys.debug], callbacks, [spawn]). *)

From Stdlib Require Import ZArith DecimalString DecimalZ.
From stdpp Require Import base gmap strings list fin_maps.

Open Scope Z_scope.
Set Warnings "-register-all".

(** ** Values *)

Inductive value : Type :=
| VUndefined
| VNull
| VBool (b : bool)
| VNum (n : Z)
| VStr (s : string)
| VArr (elts : list value)
| VObj (fields : list (string * value)).

(** Decimal rendering of an integer, as [Number.prototype.toString]. *)
Definition string_of_Z (n : Z) : string :=
  NilZero.string_of_int (Z.to_int n).

(** [ToString], which is also how a value becomes a property key. An array
    joins its elements with commas, [null] and [undefined] elements giving
    the empty string. *)
Fixpoint ToString (v : value) : string :=
  match v with
  | VUndefined => "undefined"
  | VNull => "null"
  | VBool true => "true"
  | VBool false => "false"
  | VNum n => string_of_Z n
  | VStr s => s
  | VArr l =>
      (fix join (l : list value) : string :=
         match l with
         | [] => ""
         | x :: r =>
             let sx := match x with
                       | VUndefined | VNull => ""
                       | _ => ToString x
                       end in
             match r with
             | [] => sx
             | _ :: _ => sx +:+ "," +:+ join r
             end
         end) l
  | VObj _ => "[object Object]"
  end.

(** [Array.isArray(m)] *)
Definition Array_isArray (m : value) : bool :=
  match m with VArr _ => true | _ => false end.

(** [m.length] of an array (only evaluated behind an [Array.isArray]
    guard). *)
Definition js_length (m : value) : nat :=
  match m with VArr l => length l | _ => 0%nat end.

(** [typeof v === 'number'] *)
Definition typeof_number (v : value) : bool :=
  match v with VNum _ => true | _ => false end.

(** [v === c] for a numeric constant [c]. *)
Definition strict_eq_num (v : value) (c : Z) : bool :=
  match v with VNum n => bool_decide (n = c) | _ => false end.

Fixpoint assoc (k : string) (fields : list (string * value)) : option value :=
  match fields with
  | [] => None
  | (k', v) :: r => if bool_decide (k = k') then Some v else assoc k r
  end.

(** [ToString] with its failure: [None] stands for the [TypeError] "cannot
    convert object to primitive value". A decoded map is an object whose
    own properties are its fields and whose values are data, never
    functions: with an own [toString] property it has no callable
    [toString] and its inherited [valueOf] returns the object itself, so
    the conversion throws; without one, [Object.prototype.toString] gives
    ["[object Object]"]. An array is joined, which converts its elements in
    turn. This is the conversion that [text + v] makes of [v]. *)
Fixpoint js_ToString (v : value) : option string :=
  match v with
  | VUndefined => Some "undefined"
  | VNull => Some "null"
  | VBool true => Some "true"
  | VBool false => Some "false"
  | VNum n => Some (string_of_Z n)
  | VStr s => Some s
  | VArr l =>
      (fix join (l : list value) : option string :=
         match l with
         | [] => Some ""
         | x :: r =>
             match (match x with
                    | VUndefined | VNull => Some ""
                    | _ => js_ToString x
                    end) with
             | None => None
             | Some sx =>
                 match r with
                 | [] => Some sx
                 | _ :: _ =>
                     match join r with
                     | Some sr => Some (sx +:+ "," +:+ sr)
                     | None => None
                     end
                 end
             end
         end) l
  | VObj fields =>
      match assoc "toString" fields with
      | Some _ => None
      | None => Some "[object Object]"
      end
  end.
Arguments js_ToString : simpl never.

(** [m[i]] where it cannot throw: [undefined] when the property is absent.
    [None] stands for the [TypeError] of indexing [null] or [undefined]. *)
Definition js_index (m : value) (i : nat) : option value :=
  match m with
  | VUndefined | VNull => None
  | VArr l => Some (default VUndefined (l !! i))
  | VStr s => Some (match String.get i s with
                    | Some a => VStr (String a EmptyString)
                    | None => VUndefined
                    end)
  | VObj fields => Some (default VUndefined (assoc (string_of_Z (Z.of_nat i)) fields))
  | VBool _ | VNum _ => Some VUndefined
  end.

(** [m[i]] behind an [Array.isArray] guard. *)
Definition arr_get (m : value) (i : nat) : value :=
  default VUndefined (js_index m i).

(** Induction on values, with the property for the elements of an array. *)
Section ValueInduction.

Variable P : value → Prop.
Hypothesis P_undefined : P VUndefined.
Hypothesis P_null : P VNull.
Hypothesis P_bool : ∀ b, P (VBool b).
Hypothesis P_num : ∀ n, P (VNum n).
Hypothesis P_str : ∀ s, P (VStr s).
Hypothesis P_arr : ∀ l, Forall P l → P (VArr l).
Hypothesis P_obj : ∀ fields, P (VObj fields).

Fixpoint value_elements_ind (v : value) : P v :=
  match v with
  | VUndefined => P_undefined
  | VNull => P_null
  | VBool b => P_bool b
  | VNum n => P_num n
  | VStr s => P_str s
  | VArr l =>
      P_arr l
        ((fix elements (l : list value) : Forall P l :=
            match l with
            | [] => @List.Forall_nil value P
            | x :: r => @List.Forall_cons value P x r (value_elements_ind x) (elements r)
            end) l)
  | VObj fields => P_obj fields
  end.

End ValueInduction.

(** ** The host process: objects, state, effects *)

(** A [Worker] object, a connection (the socket [s] together with the
    [MsgStream] [ms] wrapped around it) and a user callback are referred to
    by reference. *)
Abbreviation handle := nat (only parsing).
Abbreviation conn := nat (only parsing).
Abbreviation callback := nat (only parsing).

(** The two functions ever installed as ['msg'] listeners of a [MsgStream]:
    the handshake listener of lines 117-153 and the closure of lines
    141-143, which captures [pid]. *)
Inductive listener : Type :=
| HandshakeListener
| DispatchListener (pid : value).

(** What the closures of one [Worker] object hold: the user-assigned
    [onmessage] property, the [pid] field of the child process object [cp]
    (a number while the child runs, [null] once it has terminated: lines
    180-181), the saved [cp_pid] and [src]. The two pids are [undefined]
    until [spawn] has returned. *)
Record worker_obj : Type := mkWorkerObj {
  onmessage : option callback;
  cp_dot_pid : value;
  cp_pid : value;
  worker_src : string
}.

Record stream : Type := mkStream {
  listeners : list listener;
  ended : bool
}.

Record host : Type := mkHost {
  master : bool;                            (* [master !== null] *)
  workers : gmap string handle;             (* PIDs to Worker objects *)
  workerStreams : gmap string conn;         (* PIDs to Stream objects *)
  workerMsgQueue : gmap string (list value);(* PIDs to waiting messages *)
  objects : list worker_obj;                (* the Worker objects *)
  streams : list stream                     (* the accepted connections *)
}.

Definition set_master (b : bool) (st : host) : host :=
  mkHost b (workers st) (workerStreams st) (workerMsgQueue st) (objects st) (streams st).
Definition set_workers (f : gmap string handle → gmap string handle) (st : host) : host :=
  mkHost (master st) (f (workers st)) (workerStreams st) (workerMsgQueue st) (objects st) (streams st).
Definition set_workerStreams (f : gmap string conn → gmap string conn) (st : host) : host :=
  mkHost (master st) (workers st) (f (workerStreams st)) (workerMsgQueue st) (objects st) (streams st).
Definition set_workerMsgQueue
    (f : gmap string (list value) → gmap string (list value)) (st : host) : host :=
  mkHost (master st) (workers st) (workerStreams st) (f (workerMsgQueue st)) (objects st) (streams st).
Definition set_objects (f : list worker_obj → list worker_obj) (st : host) : host :=
  mkHost (master st) (workers st) (workerStreams st) (workerMsgQueue st) (f (objects st)) (streams st).
Definition set_streams (f : list stream → list stream) (st : host) : host :=
  mkHost (master st) (workers st) (workerStreams st) (workerMsgQueue st) (objects st) (f (streams st)).

(** Before the first [new Worker(...)]: [master] is [null], nothing is
    allocated. *)
Definition initial : host := mkHost false ∅ ∅ ∅ [] [].

(** The registry: the three maps owned by the master. *)
Definition registry (st : host)
  : gmap string handle * gmap string conn * gmap string (list value) :=
  (workers st, workerStreams st, workerMsgQueue st).

(** Calls that leave the master: they are recorded in order. *)
Inductive effect : Type :=
| ESend (ms : conn) (envelope : value)        (* [ms.send(envelope)] *)
| EEnd (s : conn)                             (* [s.end()] *)
| EDebug (text : string) (v : value)          (* [sys.debug(text + v)] *)
| ECall (f : callback) (arg : value)          (* [ww.onmessage(arg)] *)
| ESpawn (sock_path src : string) (pid : Z)   (* [child_process.spawn] *)
| EListen (path : string).                    (* [srv.listen(path)] *)

Inductive exn : Type :=
| AssertionError (message : string)
| TypeError.

Inductive outcome (A : Type) : Type :=
| Ret (a : A)
| Throw (e : exn).
Arguments Ret {A} a.
Arguments Throw {A} e.

(** State, exceptions and the effect log. A throw keeps the state reached
    and the effects made so far, as JavaScript does. *)
Definition M (A : Type) : Type := host → outcome A * host * list effect.

Definition ret {A} (a : A) : M A := λ st, (Ret a, st, []).
Definition throw {A} (e : exn) : M A := λ st, (Throw e, st, []).
Definition bind {A B} (c : M A) (k : A → M B) : M B :=
  λ st, match c st with
        | (Ret a, st1, e1) =>
            match k a st1 with (r, st2, e2) => (r, st2, e1 ++ e2) end
        | (Throw e, st1, e1) => (Throw e, st1, e1)
        end.
Definition gets {A} (f : host → A) : M A := λ st, (Ret (f st), st, []).
Definition modify (f : host → host) : M unit := λ st, (Ret tt, f st, []).
Definition emit (e : effect) : M unit := λ st, (Ret tt, st, [e]).

#[global] Instance M_ret : MRet M := @ret.
#[global] Instance M_bind : MBind M := λ A B k c, bind c k.

(** [l.forEach(f)] *)
Fixpoint forEach {A} (l : list A) (f : A → M unit) : M unit :=
  match l with
  | [] => ret tt
  | x :: r => f x ;; forEach r f
  end.

(** [assert.ok(b, message)] *)
Definition assert_ok (b : bool) (message : string) : M unit :=
  if b then ret tt else throw (AssertionError message).

Definition state_of {A} (r : outcome A * host * list effect) : host := snd (fst r).
Definition effects_of {A} (r : outcome A * host * list effect) : list effect := snd r.
Definition outcome_of {A} (r : outcome A * host * list effect) : outcome A := fst (fst r).

(** ** What [webworker.js] imports

    [require('./webworker-utils')] provides the message type constants, the
    envelope validity test and [MsgStream]; [process.pid] names the socket.
    The constants and the validity test are taken as they come. *)
Record wwutil_exports : Type := mkWwutil {
  MSGTYPE_NOOP : Z;
  MSGTYPE_HANDSHAKE : Z;
  MSGTYPE_USER : Z;
  isValidMessage : value → bool
}.

Section WebWorker.

Variable wwutil : wwutil_exports.
Variable process_pid : Z.

(** Path to the UNIX domain socket for communication with children. *)
Definition SOCK_PATH : string :=
  "/tmp/node-webworker-" +:+ string_of_Z process_pid +:+ ".sock".

(** *** WorkerMaster *)

(** [self.addWorker = function(pid, w) { workers[pid] = w; }] *)
Definition addWorker (pid : value) (w : handle) : M unit :=
  modify (set_workers <[ToString pid := w]>).

(** [ms.send(envelope)] on the stream [ms]. *)
Definition send (ms : conn) (envelope : value) : M unit :=
  emit (ESend ms envelope).

(** [var q = workerMsgQueue[pid]; if (!q) { workerMsgQueue[pid] = q = []; }
    q.push(msg);]: [q] is the array stored in the map, pushed in place. *)
Definition enqueue (pid msg : value) : M unit :=
  q ← gets (λ st, workerMsgQueue st !! ToString pid);
  (match q with
   | None => modify (set_workerMsgQueue <[ToString pid := []]>)
   | Some _ => ret tt
   end) ;;
  modify (set_workerMsgQueue (alter (λ q, q ++ [msg]) (ToString pid))).

(** [self.postMessage = function(pid, msg)] (lines 64-78). *)
Definition postMessage (pid msg : value) : M unit :=
  w ← gets (λ st, workers st !! ToString pid);
  assert_ok (bool_decide (is_Some w))
            ("Unable to find worker for PID " +:+ ToString pid) ;;
  ms ← gets (λ st, workerStreams st !! ToString pid);
  match ms with
  | Some ms => send ms (VArr [VNum (MSGTYPE_USER wwutil); msg])
  | None => enqueue pid msg
  end.

(** [msg[i]], throwing on [null] and [undefined]. *)
Definition index (msg : value) (i : nat) : M value :=
  match js_index msg i with
  | Some v => ret v
  | None => throw TypeError
  end.

(** [if (ww.onmessage) { ww.onmessage(msg[1]); }] for the Worker object
    [ww] (lines 99-101). *)
Definition call_onmessage (ww : handle) (msg : value) : M unit :=
  o ← gets (λ st, objects st !! ww);
  match o ≫= onmessage with
  | Some f => arg ← index msg 1; emit (ECall f arg)
  | None => ret tt
  end.

(** [var handleMessage = function(pid, msg, fd)] (lines 84-109); [fd] is
    unused. The log of line 106 is built with ['...' + msg], which converts
    the envelope to a string and throws when that fails; the logs of lines
    88 and 122 go through [sys.inspect]. *)
Definition handleMessage (pid msg : value) : M unit :=
  w ← gets (λ st, workers st !! ToString pid);
  assert_ok (bool_decide (is_Some w))
            ("Unable to find worker for PID " +:+ ToString pid) ;;
  if negb (isValidMessage wwutil msg) then
    emit (EDebug "Received invalid message: " msg)
  else
    tag ← index msg 0;
    if strict_eq_num tag (MSGTYPE_NOOP wwutil) then ret tt
    else if strict_eq_num tag (MSGTYPE_USER wwutil) then
      ww ← gets (λ st, workers st !! ToString pid);
      match ww with
      | Some ww => call_onmessage ww msg
      | None => throw TypeError
      end
    else
      match js_ToString msg with
      | Some _ => emit (EDebug "Received unexpected message: " msg)
      | None => throw TypeError
      end.

(** [s.end()] *)
Definition end_socket (s : conn) : M unit :=
  emit (EEnd s) ;;
  modify (set_streams (alter (λ x, mkStream (listeners x) true) s)).

(** [ms.listeners('msg').shift()] *)
Definition shift_listener (ms : conn) : M unit :=
  modify (set_streams (alter (λ x, mkStream (tail (listeners x)) (ended x)) ms)).

(** [ms.addListener('msg', f)] *)
Definition addListener (ms : conn) (f : listener) : M unit :=
  modify (set_streams (alter (λ x, mkStream (listeners x ++ [f]) (ended x)) ms)).

(** The test of lines 118-121. *)
Definition malformed_handshake (m : value) : bool :=
  negb (Array_isArray m)
  || negb (bool_decide (js_length m = 2%nat))
  || negb (strict_eq_num (arr_get m 0) (MSGTYPE_HANDSHAKE wwutil))
  || negb (typeof_number (arr_get m 1)).

(** The ['msg'] listener installed on a new connection (lines 117-153);
    [c] is the connection, i.e. [s] and [ms]. *)
Definition handshake_listener (c : conn) (m : value) : M unit :=
  if malformed_handshake m then
    emit (EDebug "Received malformed message: " m) ;;
    end_socket c
  else
    let pid := arr_get m 1 in
    known ← gets (λ st, bool_decide (is_Some (workers st !! ToString pid)));
    bound ← gets (λ st, bool_decide (is_Some (workerStreams st !! ToString pid)));
    if negb known || bound then
      emit (EDebug "Invalid PID found in HANDSHAKE message." VUndefined) ;;
      end_socket c
    else
      modify (set_workerStreams <[ToString pid := c]>) ;;
      shift_listener c ;;
      addListener c (DispatchListener pid) ;;
      q ← gets (λ st, workerMsgQueue st !! ToString pid);
      match q with
      | Some q =>
          forEach q (λ m, send c (VArr [VNum (MSGTYPE_USER wwutil); m])) ;;
          modify (set_workerMsgQueue (delete (ToString pid)))
      | None => ret tt
      end.

(** The body of [net.createServer(function(s) {...})] for one new
    connection: a fresh [MsgStream] with the handshake listener. *)
Definition on_connection : M conn :=
  c ← gets (λ st, length (streams st));
  modify (set_streams (λ l, l ++ [mkStream [HandshakeListener] false])) ;;
  ret c.

Definition run_listener (c : conn) (m : value) (f : listener) : M unit :=
  match f with
  | HandshakeListener => handshake_listener c m
  | DispatchListener pid => handleMessage pid m
  end.

(** [ms.emit('msg', m, fd)]: the listeners installed when the event is
    raised run in order. *)
Definition emit_msg (c : conn) (m : value) : M unit :=
  s ← gets (λ st, streams st !! c);
  match s with
  | Some s => forEach (listeners s) (run_listener c m)
  | None => ret tt
  end.

(** [new WorkerMaster(path)] (lines 46-158). *)
Definition WorkerMaster (path : string) : M unit :=
  modify (set_workers (λ _, ∅)) ;;
  modify (set_workerStreams (λ _, ∅)) ;;
  modify (set_workerMsgQueue (λ _, ∅)) ;;
  emit (EListen path).

(** *** Worker *)

(** Lines 162-195 of [var Worker = function(src)]: the object under
    construction is [self]; the singleton master is created on first use;
    the child is spawned, [pid] being the process id that
    [child_process.spawn] reports in [cp.pid]; [cp_pid] is saved. The
    listeners added to [cp] act on later events only. *)
Definition Worker_spawn (src : string) (pid : Z) : M handle :=
  self ← gets (λ st, length (objects st));
  modify (set_objects (λ l, l ++ [mkWorkerObj None VUndefined VUndefined src])) ;;
  m ← gets master;
  (if m : bool then ret tt
   else WorkerMaster SOCK_PATH ;; modify (set_master true)) ;;
  emit (ESpawn SOCK_PATH src pid) ;;
  modify (set_objects
            (alter (λ o, mkWorkerObj (onmessage o) (VNum pid) (VNum pid) src) self)) ;;
  ret self.

(** [new Worker(src)]: the lines above, then line 197,
    [master.addWorker(cp.pid, self)]. *)
Definition Worker (src : string) (pid : Z) : M handle :=
  self ← Worker_spawn src pid;
  cp ← gets (λ st, objects st !! self);
  addWorker (from_option cp_dot_pid VUndefined cp) self ;;
  ret self.

(** [self.postMessage = function(msg) { master.postMessage(cp.pid, msg); }]
    of the Worker object [w]. *)
Definition Worker_postMessage (w : handle) (msg : value) : M unit :=
  o ← gets (λ st, objects st !! w);
  match o with
  | Some o => postMessage (cp_dot_pid o) msg
  | None => throw TypeError
  end.

(** [w.onmessage = f] by the user of the Worker object [w]. *)
Definition set_onmessage (w : handle) (f : option callback) : M unit :=
  modify (set_objects
            (alter (λ o, mkWorkerObj f (cp_dot_pid o) (cp_pid o) (worker_src o)) w)).

(** Termination of the child of [w]: [cp.pid] becomes [null] (lines
    180-181) and the ['exit'] listener of lines 190-195 logs [cp_pid]. *)
Definition child_exit (w : handle) (code : value) : M unit :=
  o ← gets (λ st, objects st !! w);
  match o with
  | Some o =>
      modify (set_objects
                (alter (λ o, mkWorkerObj (onmessage o) VNull (cp_pid o) (worker_src o)) w)) ;;
      emit (EDebug ("Process " +:+ ToString (cp_pid o) +:+ " for worker '" +:+
                    worker_src o +:+ "' exited with status ") code)
  | None => ret tt
  end.

(** *** The event loop *)

(** Modelled from the spec: the transport, [MsgStream] over [net.Stream],
    which [webworker.js] only uses. Each envelope decoded on a connection is
    raised as one ['msg'] event to the listeners installed at that time,
    whether [s.end()] has been called on the connection or not. *)
Definition deliver (c : conn) (m : value) : M unit :=
  emit_msg c m.

(** What can happen to the host, one turn of the event loop each. User
    code is outside the model: an [onmessage] callback is recorded as a
    call, and what it does to a Worker object is a further event. *)
Inductive event : Type :=
| NewWorker (src : string) (pid : Z)
| SetOnmessage (w : handle) (f : option callback)
| PostMessage (w : handle) (msg : value)
| Connection
| Message (c : conn) (m : value)
| ChildExit (w : handle) (code : value).

Definition exec (ev : event) : M unit :=
  match ev with
  | NewWorker src pid => Worker src pid ;; ret tt
  | SetOnmessage w f => set_onmessage w f
  | PostMessage w msg => Worker_postMessage w msg
  | Connection =>
      m ← gets master;
      if m : bool then on_connection ;; ret tt else ret tt
  | Message c m => deliver c m
  | ChildExit w code => child_exit w code
  end.

(** A run of the event loop: an exception ends the turn that raised it and
    the loop goes on from the state reached. *)
Fixpoint run (evs : list event) (st : host) : host * list effect :=
  match evs with
  | [] => (st, [])
  | ev :: evs =>
      let r := exec ev st in
      let rest := run evs (state_of r) in
      (fst rest, effects_of r ++ snd rest)
  end.

Definition reachable (st : host) : Prop :=
  ∃ evs, st = fst (run evs initial).

(** *** Vocabulary of the properties *)

(** The envelope [[MSGTYPE_USER, msg]] that carries a user payload. *)
Definition user_envelope (msg : value) : value :=
  VArr [VNum (MSGTYPE_USER wwutil); msg].

(** The first envelope a connection must send: exactly
    [[MSGTYPE_HANDSHAKE, n]] with [n] a number that names a registered
    identity with no bound channel. *)
Definition well_formed_handshake (st : host) (m : value) : Prop :=
  ∃ n, m = VArr [VNum (MSGTYPE_HANDSHAKE wwutil); VNum n]
       ∧ is_Some (workers st !! string_of_Z n)
       ∧ workerStreams st !! string_of_Z n = None.

(** The envelopes written to the stream [c], in order. *)
Definition sends_on (c : conn) (effs : list effect) : list value :=
  omap (λ e, match e with
             | ESend c' envelope => if bool_decide (c' = c) then Some envelope else None
             | _ => None
             end) effs.

(** The payload that the turn [ev], taken in state [st], posts to the
    identity of key [k]: the [msg] of a [w.postMessage(msg)] whose [cp.pid]
    has key [k], when [k] is registered. *)
Definition posted_for (k : string) (ev : event) (st : host) : list value :=
  match ev with
  | PostMessage w msg =>
      match objects st !! w with
      | Some o =>
          if bool_decide (ToString (cp_dot_pid o) = k ∧ is_Some (workers st !! k))
          then [msg] else []
      | None => []
      end
  | _ => []
  end.

(** The payloads posted to the identity of key [k] along a run, in the
    order of the calls. *)
Fixpoint posted (k : string) (evs : list event) (st : host) : list value :=
  match evs with
  | [] => []
  | ev :: evs =>
      posted_for k ev st ++ posted k evs (state_of (exec ev st))
  end.

(** *** The states the master moves between *)

(** A connection after [s.end()]. *)
Definition close_stream (x : stream) : stream := mkStream (listeners x) true.

(** The state after [s.end()] on the connection [c]. *)
Definition closed_state (c : conn) (st : host) : host :=
  set_streams (alter close_stream c) st.

(** The connection [c] after its handshake for [pid]: the handshake
    listener is replaced by the dispatcher of [pid]. *)
Definition bind_listener (pid : value) (x : stream) : stream :=
  mkStream (tail (listeners x) ++ [DispatchListener pid]) (ended x).

(** The state right after the handshake of [pid] on [c] has succeeded. *)
Definition bound_state (pid : value) (c : conn) (st : host) : host :=
  mkHost (master st) (workers st)
    (<[ToString pid := c]> (workerStreams st))
    (delete (ToString pid) (workerMsgQueue st))
    (objects st)
    (alter (bind_listener pid) c (streams st)).

(** The state in which [child_process.spawn] has returned: the object
    exists with its pids, the master exists, nothing is registered yet. *)
Definition spawned_state (src : string) (pid : Z) (st : host) : host :=
  mkHost true
    (if master st then workers st else ∅)
    (if master st then workerStreams st else ∅)
    (if master st then workerMsgQueue st else ∅)
    (objects st ++ [mkWorkerObj None (VNum pid) (VNum pid) src])
    (streams st).

(** What the constructor has done to the outside when [spawn] returns. *)
Definition spawn_effects (src : string) (pid : Z) (st : host) : list effect :=
  (if master st then [] else [EListen SOCK_PATH]) ++
  [ESpawn SOCK_PATH src pid].

(** A Worker object whose child has terminated. *)
Definition set_exited (o : worker_obj) : worker_obj :=
  mkWorkerObj (onmessage o) VNull (cp_pid o) (worker_src o).

(** The state after [msg] has been pushed on the queue of key [k]. *)
Definition queued_state (k : string) (msg : value) (st : host) : host :=
  set_workerMsgQueue <[k := default [] (workerMsgQueue st !! k) ++ [msg]]> st.

(** The state in which [new Worker(src)] returns. *)
Definition registered_state (src : string) (pid : Z) (st : host) : host :=
  mkHost true (<[string_of_Z pid := length (objects st)]> (workers st))
    (workerStreams st) (workerMsgQueue st)
    (objects st ++ [mkWorkerObj None (VNum pid) (VNum pid) src]) (streams st).

(** *** The invariant of the host state *)

Record invariant (st : host) : Prop := mkInvariant {
  (* before the master exists nothing is registered or connected *)
  inv_master :
    master st = false →
    workers st = ∅ ∧ workerStreams st = ∅ ∧ workerMsgQueue st = ∅ ∧ streams st = [];
  (* only registered identities have a channel or a queue *)
  inv_bound_registered :
    ∀ k, is_Some (workerStreams st !! k) → is_Some (workers st !! k);
  inv_queue_registered :
    ∀ k, is_Some (workerMsgQueue st !! k) → is_Some (workers st !! k);
  (* a queue exists only while the channel is absent *)
  inv_queue_unbound :
    ∀ k, is_Some (workerStreams st !! k) → workerMsgQueue st !! k = None;
  (* every key of the registry is the pid of a spawned child *)
  inv_keys :
    ∀ k, is_Some (workers st !! k) → ∃ n, k = string_of_Z n;
  (* a Worker object keeps the pid it was registered under *)
  inv_objects :
    ∀ w o, objects st !! w = Some o →
      ∃ n, cp_pid o = VNum n ∧ (cp_dot_pid o = VNum n ∨ cp_dot_pid o = VNull)
           ∧ is_Some (workers st !! string_of_Z n);
  (* a connection has one listener: the handshake listener while it is
     bound to nothing, the dispatcher of the identity it is bound to after *)
  inv_listeners :
    ∀ c s, streams st !! c = Some s →
      (listeners s = [HandshakeListener] ∧ ∀ k, workerStreams st !! k ≠ Some c)
      ∨ (∃ pid, listeners s = [DispatchListener pid]
                ∧ workerStreams st !! ToString pid = Some c);
  inv_bound :
    ∀ k c, workerStreams st !! k = Some c →
      ∃ s pid, streams st !! c = Some s ∧ listeners s = [DispatchListener pid]
               ∧ ToString pid = k
}.

(** *** The turns of the event loop as a step relation *)

Inductive step (st : host) : event → host → list effect → Prop :=
| step_new src pid :
    step st (NewWorker src pid) (registered_state src pid st)
         (spawn_effects src pid st)
| step_onmessage w f :
    step st (SetOnmessage w f)
         (set_objects
            (alter (λ o, mkWorkerObj f (cp_dot_pid o) (cp_pid o) (worker_src o)) w) st)
         []
| step_post_no_object w msg :
    objects st !! w = None →
    step st (PostMessage w msg) st []
| step_post_unknown w o msg :
    objects st !! w = Some o →
    workers st !! ToString (cp_dot_pid o) = None →
    step st (PostMessage w msg) st []
| step_post_send w o msg c :
    objects st !! w = Some o →
    is_Some (workers st !! ToString (cp_dot_pid o)) →
    workerStreams st !! ToString (cp_dot_pid o) = Some c →
    step st (PostMessage w msg) st [ESend c (user_envelope msg)]
| step_post_queue w o msg :
    objects st !! w = Some o →
    is_Some (workers st !! ToString (cp_dot_pid o)) →
    workerStreams st !! ToString (cp_dot_pid o) = None →
    step st (PostMessage w msg) (queued_state (ToString (cp_dot_pid o)) msg st) []
| step_connection_refused :
    master st = false →
    step st Connection st []
| step_connection :
    master st = true →
    step st Connection
         (set_streams (λ l, l ++ [mkStream [HandshakeListener] false]) st) []
| step_msg_absent c m :
    streams st !! c = None →
    step st (Message c m) st []
| step_msg_rejected c m s text v :
    streams st !! c = Some s →
    listeners s = [HandshakeListener] →
    malformed_handshake m = true
    ∨ (∃ n, m = VArr [VNum (MSGTYPE_HANDSHAKE wwutil); VNum n]
            ∧ (workers st !! string_of_Z n = None
               ∨ is_Some (workerStreams st !! string_of_Z n))) →
    step st (Message c m) (closed_state c st) [EDebug text v; EEnd c]
| step_msg_bound c s n :
    streams st !! c = Some s →
    listeners s = [HandshakeListener] →
    is_Some (workers st !! string_of_Z n) →
    workerStreams st !! string_of_Z n = None →
    step st (Message c (VArr [VNum (MSGTYPE_HANDSHAKE wwutil); VNum n]))
         (bound_state (VNum n) c st)
         (map (λ m, ESend c (user_envelope m))
              (default [] (workerMsgQueue st !! string_of_Z n)))
| step_msg_dispatch c m s pid :
    streams st !! c = Some s →
    listeners s = [DispatchListener pid] →
    workerStreams st !! ToString pid = Some c →
    step st (Message c m) st (effects_of (handleMessage pid m st))
| step_exit_no_object w code :
    objects st !! w = None →
    step st (ChildExit w code) st []
| step_exit w o code text :
    objects st !! w = Some o →
    step st (ChildExit w code) (set_objects (alter set_exited w) st)
         [EDebug text code].

End WebWorker.

(** ** A concrete [webworker-utils] *)

(** Modelled from the spec: the constants and the validity test of
    [webworker-utils.js]. An envelope is a two-element sequence
    [[messageType, payload]]; [NOOP] is [0] (the envelope [[0, 99]] of the
    spec's scenario B); the values of the other two types are not given,
    they are taken distinct. *)
Definition wwutil_spec : wwutil_exports :=
  mkWwutil 0 1 2
    (λ m, Array_isArray m && bool_decide (js_length m = 2%nat)).

(** One worker spawned as pid 4321 by the host of pid 99. *)
Definition demo_registered : host :=
  fst (run wwutil_spec 99 [NewWorker "w.js" 4321] initial).

(** The same, with one connection accepted and nothing received on it. *)
Definition demo_connected : host :=
  fst (run wwutil_spec 99 [NewWorker "w.js" 4321; Connection] initial).

(** The same, after the handshake of 4321 on that connection; the Worker
    object has no [onmessage]. *)
Definition demo_bound : host :=
  fst (run wwutil_spec 99
         [NewWorker "w.js" 4321; Connection;
          Message 0%nat (VArr [VNum 1; VNum 4321])] initial).

(** The same with [onmessage] set to the callback 7. *)
Definition demo_listening : host :=
  fst (run wwutil_spec 99
         [NewWorker "w.js" 4321; SetOnmessage 0%nat (Some 7%nat); Connection;
          Message 0%nat (VArr [VNum 1; VNum 4321])] initial).

(** A worker with a callback and one message posted early, and a
    connection accepted on which nothing has been received. *)
Definition demo_awaiting : host :=
  fst (run wwutil_spec 99
         [NewWorker "w.js" 4321; SetOnmessage 0%nat (Some 7%nat);
          PostMessage 0%nat (VStr "early"); Connection] initial).

(** Three workers, 4321, 5 and 6, the first and the last with one message
    posted early; two connections accepted, the second bound to 5 by its
    handshake, the first with nothing received. *)
Definition demo_three : host :=
  fst (run wwutil_spec 99
         [NewWorker "w.js" 4321; NewWorker "v.js" 5; NewWorker "u.js" 6;
          PostMessage 0%nat (VStr "a"); PostMessage 2%nat (VStr "c");
          Connection; Connection;
          Message 1%nat (VArr [VNum 1; VNum 5])] initial).

(** The same, after the handshake of 4321 on the first connection. *)
Definition demo_three_bound : host :=
  fst (run wwutil_spec 99 [Message 0%nat (VArr [VNum 1; VNum 4321])] demo_three).

(** ** Properties *)

Example scenario_A :
  let evs := [NewWorker "w.js" 4321;
              SetOnmessage 0%nat (Some 7%nat);
              PostMessage 0%nat (VObj [("a", VNum 1)]);
              PostMessage 0%nat (VObj [("a", VNum 2)]);
              Connection;
              Message 0%nat (VArr [VNum 1; VNum 4321]);
              PostMessage 0%nat (VObj [("a", VNum 3)]);
              Message 0%nat (VArr [VNum 2; VStr "hi"])] in
  snd (run wwutil_spec 99 evs initial) =
  [EListen "/tmp/node-webworker-99.sock";
   ESpawn "/tmp/node-webworker-99.sock" "w.js" 4321;
   ESend 0%nat (VArr [VNum 2; VObj [("a", VNum 1)]]);
   ESend 0%nat (VArr [VNum 2; VObj [("a", VNum 2)]]);
   ESend 0%nat (VArr [VNum 2; VObj [("a", VNum 3)]]);
   ECall 7%nat (VStr "hi")].
Proof. vm_compute. reflexivity. Qed.

Lemma string_of_Z_not_null (n : Z) : string_of_Z n ≠ "null".
Proof.
  unfold string_of_Z.
  destruct (Z.to_int n) as [u|u]; simpl; [|discriminate].
  destruct u; simpl; discriminate.
Qed.

Lemma string_of_Z_inj (n m : Z) : string_of_Z n = string_of_Z m → n = m.
Proof.
  unfold string_of_Z. intros H.
  rewrite <- (DecimalZ.of_to n), <- (DecimalZ.of_to m).
  f_equal.
  assert (HS : ∀ z, NilZero.int_of_string (NilZero.string_of_int (Z.to_int z))
                    = Some (Z.to_int z)).
  { intros z. apply NilZero.isi.
    - destruct z; simpl; try discriminate.
      intros E. injection E as E. by apply DecimalPos.Unsigned.to_uint_nonnil in E.
    - destruct z; simpl; try discriminate.
      intros E. injection E as E. by apply DecimalPos.Unsigned.to_uint_nonnil in E. }
  assert (E : Some (Z.to_int n) = Some (Z.to_int m)).
  { rewrite <- !HS. by rewrite H. }
  congruence.
Qed.

(** Where the conversion to a string does not throw, it gives [ToString]. *)
Lemma js_ToString_ToString (v : value) (s : string) :
  js_ToString v = Some s → ToString v = s.
Proof.
  revert s. induction v as [| |[|]|n|s0|l IHl|fields] using value_elements_ind;
    intros s; unfold js_ToString; fold js_ToString; simpl; try congruence.
  - revert s. induction IHl as [|x r Hx _ IHr]; intros s; [congruence|].
    intros H.
    assert (Hx' : ∀ sx,
              match x with VUndefined | VNull => Some "" | _ => js_ToString x end
              = Some sx →
              match x with VUndefined | VNull => "" | _ => ToString x end = sx).
    { intros sx. destruct x; try congruence; apply Hx. }
    destruct (match x with VUndefined | VNull => Some "" | _ => js_ToString x end)
      as [sx|] eqn:Ex; [|discriminate].
    rewrite (Hx' sx eq_refl).
    destruct r as [|y r']; [congruence|].
    match type of H with
    | context [match ?j with Some _ => _ | None => None end] =>
        destruct j as [sr|] eqn:Er
    end; [|discriminate].
    injection H as <-. f_equal. f_equal. by apply IHr.
  - destruct (assoc "toString" fields); congruence.
Qed.

Lemma value_num_cases (v : value) (c : Z) : v = VNum c ∨ v ≠ VNum c.
Proof.
  destruct v as [| | |n| | |]; try (right; discriminate).
  destruct (decide (n = c)) as [->|H]; [by left|right; congruence].
Qed.

Section Properties.

Variable wwutil : wwutil_exports.
Variable process_pid : Z.

Ltac monad_unfold :=
  unfold mbind, mret, M_bind, M_ret, bind, gets, modify, emit, ret, throw,
    assert_ok, send.

(** *** One call of each function of the master *)

Lemma postMessage_unknown st pid msg :
  workers st !! ToString pid = None →
  postMessage wwutil pid msg st =
    (Throw (AssertionError ("Unable to find worker for PID " +:+ ToString pid)),
     st, []).
Proof.
  intros H. unfold postMessage. monad_unfold. by rewrite H.
Qed.

Lemma postMessage_bound st pid msg c :
  is_Some (workers st !! ToString pid) →
  workerStreams st !! ToString pid = Some c →
  postMessage wwutil pid msg st = (Ret tt, st, [ESend c (user_envelope wwutil msg)]).
Proof.
  intros [w H1] H2. unfold postMessage. monad_unfold.
  rewrite H1. simpl. by rewrite H2.
Qed.

Lemma postMessage_queued st pid msg :
  is_Some (workers st !! ToString pid) →
  workerStreams st !! ToString pid = None →
  postMessage wwutil pid msg st =
    (Ret tt,
     set_workerMsgQueue
       <[ToString pid := default [] (workerMsgQueue st !! ToString pid) ++ [msg]]> st,
     []).
Proof.
  intros [w H1] H2. unfold postMessage, enqueue. monad_unfold.
  rewrite H1. simpl. rewrite H2. simpl.
  destruct (workerMsgQueue st !! ToString pid) as [q|] eqn:E; simpl.
  - unfold set_workerMsgQueue. simpl. by rewrite (alter_alt_Some _ _ _ q).
  - unfold set_workerMsgQueue. simpl. by rewrite alter_insert_eq.
Qed.

Lemma forEach_send st c (q : list value) :
  forEach q (λ m, send c (user_envelope wwutil m)) st =
    (Ret tt, st, map (λ m, ESend c (user_envelope wwutil m)) q).
Proof.
  induction q as [|m q IH]; simpl; [done|].
  unfold mbind, M_bind, bind. unfold send at 1, emit. simpl. by rewrite IH.
Qed.

Lemma forEach_singleton {A} (f : A → M unit) (x : A) st :
  forEach [x] f st = f x st.
Proof.
  simpl. monad_unfold. destruct (f x st) as [[[[]|e] st'] effs]; simpl; [|done].
  by rewrite app_nil_r.
Qed.

Lemma handleMessage_state st pid msg :
  state_of (handleMessage wwutil pid msg st) = st.
Proof.
  unfold handleMessage, call_onmessage, index. monad_unfold.
  destruct (workers st !! ToString pid) as [w|] eqn:Hw; simpl; [|done].
  destruct (isValidMessage wwutil msg); simpl; [|done].
  destruct (js_index msg 0) as [tag|]; simpl; [|done].
  destruct (strict_eq_num tag (MSGTYPE_NOOP wwutil)); simpl; [done|].
  destruct (strict_eq_num tag (MSGTYPE_USER wwutil)); simpl;
    [|by destruct (js_ToString msg)].
  rewrite Hw.
  destruct (objects st !! w) as [o|]; simpl; [|done].
  destruct (onmessage o); simpl; [|done].
  by destruct (js_index msg 1).
Qed.

Lemma handleMessage_invalid st pid msg :
  is_Some (workers st !! ToString pid) →
  isValidMessage wwutil msg = false →
  handleMessage wwutil pid msg st =
    (Ret tt, st, [EDebug "Received invalid message: " msg]).
Proof.
  intros [w Hw] Hv. unfold handleMessage. monad_unfold.
  rewrite Hw. simpl. by rewrite Hv.
Qed.

Lemma handleMessage_noop st pid payload rest :
  is_Some (workers st !! ToString pid) →
  let msg := VArr (VNum (MSGTYPE_NOOP wwutil) :: payload :: rest) in
  isValidMessage wwutil msg = true →
  handleMessage wwutil pid msg st = (Ret tt, st, []).
Proof.
  intros [w Hw] msg Hv. unfold handleMessage, index. monad_unfold.
  rewrite Hw. simpl. rewrite Hv. simpl.
  by rewrite bool_decide_eq_true_2.
Qed.

Lemma handleMessage_user st pid ww payload rest :
  workers st !! ToString pid = Some ww →
  MSGTYPE_NOOP wwutil ≠ MSGTYPE_USER wwutil →
  let msg := VArr (VNum (MSGTYPE_USER wwutil) :: payload :: rest) in
  isValidMessage wwutil msg = true →
  handleMessage wwutil pid msg st =
    (Ret tt, st,
     match objects st !! ww ≫= onmessage with
     | Some f => [ECall f payload]
     | None => []
     end).
Proof.
  intros Hw Hne msg Hv. unfold handleMessage, call_onmessage, index. monad_unfold.
  rewrite Hw. simpl. rewrite Hv. simpl.
  rewrite bool_decide_eq_false_2 by congruence.
  rewrite bool_decide_eq_true_2 by done. simpl.
  rewrite Hw.
  destruct (objects st !! ww) as [o|]; simpl; [destruct (onmessage o)|]; done.
Qed.

Lemma handleMessage_other st pid tag payload rest :
  is_Some (workers st !! ToString pid) →
  tag ≠ VNum (MSGTYPE_NOOP wwutil) →
  tag ≠ VNum (MSGTYPE_USER wwutil) →
  let msg := VArr (tag :: payload :: rest) in
  isValidMessage wwutil msg = true →
  handleMessage wwutil pid msg st =
    match js_ToString msg with
    | Some _ => (Ret tt, st, [EDebug "Received unexpected message: " msg])
    | None => (Throw TypeError, st, [])
    end.
Proof.
  intros [w Hw] H1 H2 msg Hv. unfold handleMessage, index. monad_unfold.
  rewrite Hw. simpl. rewrite Hv. simpl.
  assert (E1 : strict_eq_num tag (MSGTYPE_NOOP wwutil) = false).
  { destruct tag; simpl; try done. apply bool_decide_eq_false_2. congruence. }
  assert (E2 : strict_eq_num tag (MSGTYPE_USER wwutil) = false).
  { destruct tag; simpl; try done. apply bool_decide_eq_false_2. congruence. }
  rewrite E1, E2. by destruct (js_ToString msg).
Qed.

(** The handshake test accepts exactly the arrays [[MSGTYPE_HANDSHAKE, n]]
    with [n] a number. *)
Lemma malformed_handshake_false m :
  malformed_handshake wwutil m = false ↔
  ∃ n, m = VArr [VNum (MSGTYPE_HANDSHAKE wwutil); VNum n].
Proof.
  unfold malformed_handshake. split.
  - intros H.
    destruct m as [| | | | |l|]; try discriminate. simpl in H.
    destruct l as [|t [|p [|x l]]]; try discriminate.
    unfold arr_get in H. simpl in H.
    destruct t; try discriminate.
    destruct p; simpl in H; try (by rewrite orb_true_r in H).
    case_bool_decide; [|discriminate]. subst. eauto.
  - intros [n ->]. unfold arr_get. simpl. by rewrite bool_decide_eq_true_2.
Qed.

Lemma end_socket_eq c st :
  end_socket c st = (Ret tt, closed_state c st, [EEnd c]).
Proof. reflexivity. Qed.

Lemma handshake_malformed st c m :
  malformed_handshake wwutil m = true →
  handshake_listener wwutil c m st =
    (Ret tt, closed_state c st,
     [EDebug "Received malformed message: " m; EEnd c]).
Proof.
  intros H. unfold handshake_listener. rewrite H. reflexivity.
Qed.

Lemma handshake_invalid_pid st c n :
  workers st !! string_of_Z n = None ∨ is_Some (workerStreams st !! string_of_Z n) →
  handshake_listener wwutil c (VArr [VNum (MSGTYPE_HANDSHAKE wwutil); VNum n]) st =
    (Ret tt, closed_state c st,
     [EDebug "Invalid PID found in HANDSHAKE message." VUndefined; EEnd c]).
Proof.
  intros H. unfold handshake_listener.
  rewrite (proj2 (malformed_handshake_false _)) by eauto.
  unfold arr_get. simpl. monad_unfold. simpl.
  destruct H as [H|H].
  - rewrite bool_decide_eq_false_2; [done|]. rewrite H. by intros [? ?].
  - rewrite (bool_decide_eq_true_2 (is_Some (workerStreams st !! _))) by done.
    by rewrite orb_true_r.
Qed.

Lemma handshake_accepted st c n :
  is_Some (workers st !! string_of_Z n) →
  workerStreams st !! string_of_Z n = None →
  handshake_listener wwutil c (VArr [VNum (MSGTYPE_HANDSHAKE wwutil); VNum n]) st =
    (Ret tt, bound_state (VNum n) c st,
     map (λ m, ESend c (user_envelope wwutil m))
         (default [] (workerMsgQueue st !! string_of_Z n))).
Proof.
  intros Hw Hs. unfold handshake_listener.
  rewrite (proj2 (malformed_handshake_false _)) by eauto.
  unfold arr_get. simpl. unfold mbind, M_bind, bind, gets. simpl.
  rewrite bool_decide_eq_true_2 by done.
  rewrite bool_decide_eq_false_2 by (rewrite Hs; by intros [? ?]).
  simpl. unfold bound_state.
  assert (Hl : ∀ l : list stream,
             alter (λ x, mkStream (listeners x ++ [DispatchListener (VNum n)]) (ended x)) c
               (alter (λ x, mkStream (tail (listeners x)) (ended x)) c l)
             = alter (bind_listener (VNum n)) c l).
  { intros l. by rewrite list_alter_alter_eq. }
  destruct (workerMsgQueue st !! string_of_Z n) as [q|] eqn:Hq; simpl.
  - fold (user_envelope wwutil). rewrite forEach_send. simpl.
    rewrite app_nil_r.
    unfold set_workerMsgQueue, set_streams, set_workerStreams. simpl.
    by rewrite Hl.
  - unfold set_streams, set_workerStreams. simpl.
    rewrite Hl. by rewrite delete_id.
Qed.

(** *** One turn of the event loop *)

Lemma deliver_absent st c m :
  streams st !! c = None → deliver wwutil c m st = (Ret tt, st, []).
Proof. intros H. unfold deliver, emit_msg. monad_unfold. by rewrite H. Qed.

Lemma deliver_open st c m s f :
  streams st !! c = Some s → listeners s = [f] →
  deliver wwutil c m st = run_listener wwutil c m f st.
Proof.
  intros H Hl. unfold deliver, emit_msg. unfold mbind, M_bind, bind, gets.
  rewrite H. simpl. rewrite Hl.
  rewrite forEach_singleton.
  destruct (run_listener wwutil c m f st) as [[r st'] effs]. done.
Qed.

Lemma Worker_spawn_eq st src pid :
  Worker_spawn process_pid src pid st =
    (Ret (length (objects st)), spawned_state src pid st, spawn_effects process_pid src pid st).
Proof.
  unfold Worker_spawn, WorkerMaster, spawned_state, spawn_effects.
  monad_unfold. simpl.
  destruct (master st) eqn:Hm; simpl.
  - unfold set_objects. simpl.
    rewrite alter_app_r_alt by done. rewrite Nat.sub_diag. simpl.
    by rewrite Hm.
  - unfold set_objects, set_master. simpl.
    rewrite alter_app_r_alt by done. by rewrite Nat.sub_diag.
Qed.

Lemma Worker_eq st src pid :
  Worker process_pid src pid st =
    (Ret (length (objects st)),
     set_workers <[string_of_Z pid := length (objects st)]> (spawned_state src pid st),
     spawn_effects process_pid src pid st).
Proof.
  unfold Worker. unfold mbind, M_bind, bind at 1. rewrite Worker_spawn_eq.
  unfold addWorker. monad_unfold. simpl.
  rewrite lookup_app_r by done. rewrite Nat.sub_diag. simpl.
  by rewrite app_nil_r.
Qed.

Lemma Worker_postMessage_eq st w o msg :
  objects st !! w = Some o →
  Worker_postMessage wwutil w msg st = postMessage wwutil (cp_dot_pid o) msg st.
Proof.
  intros H. unfold Worker_postMessage. unfold mbind, M_bind, bind, gets at 1.
  rewrite H. by destruct (postMessage _ _ _ _) as [[r st'] effs].
Qed.

(** *** The invariant holds along every run *)

Lemma invariant_initial : invariant initial.
Proof.
  constructor; simpl; try done; intros k; rewrite ?lookup_empty;
    try done; by intros [? ?].
Qed.

Lemma spawned_state_eq st src pid :
  invariant st →
  spawned_state src pid st =
    mkHost true (workers st) (workerStreams st) (workerMsgQueue st)
      (objects st ++ [mkWorkerObj None (VNum pid) (VNum pid) src]) (streams st).
Proof.
  intros I. unfold spawned_state.
  destruct (master st) eqn:Hm; [done|].
  destruct (inv_master _ I Hm) as (-> & -> & -> & _). done.
Qed.

Lemma invariant_Worker st src pid :
  invariant st →
  invariant (set_workers <[string_of_Z pid := length (objects st)]>
               (spawned_state src pid st)).
Proof.
  intros I. rewrite spawned_state_eq by done.
  constructor; simpl.
  - done.
  - intros k Hk. apply (inv_bound_registered _ I) in Hk.
    rewrite lookup_insert. case_decide; [by eexists|done].
  - intros k Hk. apply (inv_queue_registered _ I) in Hk.
    rewrite lookup_insert. case_decide; [by eexists|done].
  - apply (inv_queue_unbound _ I).
  - intros k. rewrite lookup_insert. case_decide; [by eexists|].
    apply (inv_keys _ I).
  - intros w o Hw. apply lookup_app_Some in Hw as [Hw|[_ Hw]].
    + destruct (inv_objects _ I _ _ Hw) as (n & ? & ? & Hn).
      exists n. split_and!; try done.
      rewrite lookup_insert. case_decide; [by eexists|done].
    + apply list_lookup_singleton_Some in Hw as [_ <-]. simpl.
      exists pid. split_and!; [done|by left|].
      rewrite lookup_insert_eq. by eexists.
  - apply (inv_listeners _ I).
  - apply (inv_bound _ I).
Qed.

Lemma invariant_objects st (f : worker_obj → worker_obj) w :
  (∀ o, cp_pid (f o) = cp_pid o) →
  (∀ o, cp_dot_pid (f o) = cp_dot_pid o ∨ cp_dot_pid (f o) = VNull) →
  invariant st →
  invariant (set_objects (alter f w) st).
Proof.
  intros Hf1 Hf2 I. constructor; simpl; try apply I.
  intros w' o'. rewrite list_lookup_alter. case_decide as Hw; [subst w'|apply I].
  intros Ho. apply fmap_Some in Ho as (o & Ho & ->).
  destruct (inv_objects _ I _ _ Ho) as (n & Hn & Hd & Hr).
  exists n. rewrite Hf1. split_and!; [done| |done].
  destruct (Hf2 o) as [->| ->]; [done|by right].
Qed.

Lemma invariant_queued st k q :
  is_Some (workers st !! k) →
  workerStreams st !! k = None →
  invariant st →
  invariant (set_workerMsgQueue <[k := q]> st).
Proof.
  intros Hw Hs I. constructor; simpl; try apply I.
  - intros Hm. destruct (inv_master _ I Hm) as (E & _).
    rewrite E, lookup_empty in Hw. by destruct Hw.
  - intros k'. rewrite lookup_insert. case_decide; [by subst|apply I].
  - intros k' Hk'. rewrite lookup_insert_ne; [by apply I|].
    intros <-. rewrite Hs in Hk'. by destruct Hk'.
Qed.

Lemma invariant_connection st :
  master st = true →
  invariant st →
  invariant (set_streams (λ l, l ++ [mkStream [HandshakeListener] false]) st).
Proof.
  intros Hm I. constructor; simpl; try apply I.
  - congruence.
  - intros c s Hc. apply lookup_app_Some in Hc as [Hc|[Hlen Hc]].
    + by apply I.
    + apply list_lookup_singleton_Some in Hc as [Hc <-]. simpl.
      left. split; [done|]. intros k Hk.
      destruct (inv_bound _ I _ _ Hk) as (s & _ & Hs & _).
      apply lookup_lt_Some in Hs. lia.
  - intros k c Hk. destruct (inv_bound _ I _ _ Hk) as (s & pid & Hs & Hl & Hp).
    exists s, pid. split_and!; try done. by apply lookup_app_l_Some.
Qed.

Lemma invariant_closed st c s :
  streams st !! c = Some s →
  listeners s = [HandshakeListener] →
  invariant st →
  invariant (closed_state c st).
Proof.
  intros Hc Hl I. constructor; simpl; try apply I.
  - intros Hm. destruct (inv_master _ I Hm) as (_ & _ & _ & E).
    by rewrite E in Hc.
  - intros c' s'. rewrite list_lookup_alter. case_decide as E; [subst c'|apply I].
    rewrite Hc. simpl. intros [= <-]. simpl.
    destruct (inv_listeners _ I _ _ Hc) as [[_ H]|(pid & H & _)].
    + by left.
    + congruence.
  - intros k c' Hk. destruct (inv_bound _ I _ _ Hk) as (s' & pid & Hs & Hl' & Hp).
    exists s', pid. split_and!; try done.
    rewrite list_lookup_alter_ne; [done|]. intros <-. congruence.
Qed.

Lemma invariant_bound st c s n :
  streams st !! c = Some s →
  listeners s = [HandshakeListener] →
  is_Some (workers st !! string_of_Z n) →
  workerStreams st !! string_of_Z n = None →
  invariant st →
  invariant (bound_state (VNum n) c st).
Proof.
  intros Hc Hl Hw Hs I. constructor; simpl.
  - intros Hm. destruct (inv_master _ I Hm) as (_ & _ & _ & E).
    by rewrite E in Hc.
  - intros k. rewrite lookup_insert. case_decide; [by subst|apply I].
  - intros k. rewrite lookup_delete. case_decide; [by intros [? ?]|apply I].
  - intros k. rewrite lookup_insert, lookup_delete.
    case_decide; [done|apply I].
  - apply I.
  - apply I.
  - intros c' s'. rewrite list_lookup_alter. case_decide as E.
    + subst c'. rewrite Hc. simpl. intros [= <-]. right.
      exists (VNum n). simpl. rewrite Hl. split_and!; try done.
      by rewrite lookup_insert_eq.
    + intros Hc'. destruct (inv_listeners _ I _ _ Hc') as [[H1 H2]|(pid & H1 & H3)].
      * left. split; [done|]. intros k. rewrite lookup_insert.
        case_decide; [congruence|apply H2].
      * right. exists pid. split_and!; try done.
        rewrite lookup_insert_ne; [done|]. intros E'. simpl in E'. congruence.
  - intros k c'. rewrite lookup_insert. case_decide as E.
    + intros [= <-]. exists (bind_listener (VNum n) s), (VNum n).
      rewrite list_lookup_alter_eq, Hc. simpl. by rewrite Hl.
    + intros Hk. destruct (inv_bound _ I _ _ Hk) as (s' & pid & Hs' & Hl' & Hp).
      exists s', pid. split_and!; try done.
      rewrite list_lookup_alter_ne; [done|]. intros <-. congruence.
Qed.

Lemma invariant_postMessage st pid msg :
  invariant st → invariant (state_of (postMessage wwutil pid msg st)).
Proof.
  intros I.
  destruct (workers st !! ToString pid) as [w|] eqn:Hw.
  - destruct (workerStreams st !! ToString pid) as [c|] eqn:Hs.
    + by rewrite (postMessage_bound _ _ _ c).
    + rewrite postMessage_queued by done. by apply invariant_queued.
  - by rewrite postMessage_unknown.
Qed.

Lemma invariant_deliver st c m :
  invariant st → invariant (state_of (deliver wwutil c m st)).
Proof.
  intros I.
  destruct (streams st !! c) as [s|] eqn:Hc; [|by rewrite deliver_absent].
  destruct (inv_listeners _ I _ _ Hc) as [[Hl _]|(pid & Hl & _)].
  - rewrite (deliver_open _ _ _ s HandshakeListener) by done. simpl.
    destruct (malformed_handshake wwutil m) eqn:Hm.
    + rewrite handshake_malformed by done. by apply (invariant_closed _ _ s).
    + apply malformed_handshake_false in Hm as [n ->].
      destruct (workers st !! string_of_Z n) as [w|] eqn:Hw.
      * destruct (workerStreams st !! string_of_Z n) as [c'|] eqn:Hs.
        -- rewrite handshake_invalid_pid by (right; by rewrite Hs).
           by apply (invariant_closed _ _ s).
        -- rewrite handshake_accepted by done.
           by apply (invariant_bound _ _ s).
      * rewrite handshake_invalid_pid by by left.
        by apply (invariant_closed _ _ s).
  - rewrite (deliver_open _ _ _ s (DispatchListener pid)) by done. simpl.
    by rewrite handleMessage_state.
Qed.

Lemma invariant_exec st ev :
  invariant st → invariant (state_of (exec wwutil process_pid ev st)).
Proof.
  intros I. destruct ev as [src pid|w f|w msg| |c m|w code]; simpl.
  - unfold mbind, M_bind, bind. rewrite Worker_eq. simpl.
    by apply invariant_Worker.
  - unfold set_onmessage, modify, state_of. simpl.
    apply invariant_objects; auto.
  - destruct (objects st !! w) as [o|] eqn:Ho.
    + rewrite (Worker_postMessage_eq _ _ o) by done.
      by apply invariant_postMessage.
    + unfold Worker_postMessage. monad_unfold. by rewrite Ho.
  - monad_unfold. destruct (master st) eqn:Hm; simpl; [|done].
    by apply invariant_connection.
  - by apply invariant_deliver.
  - unfold child_exit. monad_unfold.
    destruct (objects st !! w) as [o|] eqn:Ho; simpl; [|done].
    apply invariant_objects; auto.
Qed.

Lemma run_app evs1 evs2 st :
  run wwutil process_pid (evs1 ++ evs2) st =
    (fst (run wwutil process_pid evs2 (fst (run wwutil process_pid evs1 st))),
     snd (run wwutil process_pid evs1 st) ++
     snd (run wwutil process_pid evs2 (fst (run wwutil process_pid evs1 st)))).
Proof.
  revert st. induction evs1 as [|ev evs1 IH]; intros st; simpl.
  - by destruct (run _ _ evs2 st).
  - rewrite IH. simpl. by rewrite app_assoc.
Qed.

Lemma invariant_run evs st :
  invariant st → invariant (fst (run wwutil process_pid evs st)).
Proof.
  revert st. induction evs as [|ev evs IH]; intros st I; simpl; [done|].
  apply IH. by apply invariant_exec.
Qed.

Lemma reachable_invariant st :
  reachable wwutil process_pid st → invariant st.
Proof. intros [evs ->]. apply invariant_run, invariant_initial. Qed.

Lemma reachable_run evs st :
  reachable wwutil process_pid st →
  reachable wwutil process_pid (fst (run wwutil process_pid evs st)).
Proof.
  intros [evs0 ->]. exists (evs0 ++ evs). by rewrite run_app.
Qed.

(** *** Every turn is a step

    In a state that satisfies the invariant, [exec] takes one of the steps
    of [step]; the properties of runs below are proved by cases on them. *)

Lemma exec_step st ev :
  invariant st →
  step wwutil process_pid st ev (state_of (exec wwutil process_pid ev st))
          (effects_of (exec wwutil process_pid ev st)).
Proof.
  intros I. destruct ev as [src pid|w f|w msg| |c m|w code]; simpl.
  - unfold mbind, M_bind, bind. rewrite Worker_eq. simpl.
    rewrite spawned_state_eq by done. rewrite app_nil_r. apply step_new.
  - apply step_onmessage.
  - destruct (objects st !! w) as [o|] eqn:Ho.
    + rewrite (Worker_postMessage_eq _ _ o) by done.
      destruct (workers st !! ToString (cp_dot_pid o)) as [ww|] eqn:Hw.
      * destruct (workerStreams st !! ToString (cp_dot_pid o)) as [c|] eqn:Hs.
        -- rewrite (postMessage_bound _ _ _ c) by done.
           by eapply step_post_send.
        -- rewrite postMessage_queued by done. by eapply step_post_queue.
      * rewrite postMessage_unknown by done. by eapply step_post_unknown.
    + unfold Worker_postMessage. monad_unfold. rewrite Ho.
      by apply step_post_no_object.
  - monad_unfold. destruct (master st) eqn:Hm; simpl.
    + by apply step_connection.
    + by apply step_connection_refused.
  - destruct (streams st !! c) as [s|] eqn:Hc;
      [|rewrite deliver_absent by done; by apply step_msg_absent].
    destruct (inv_listeners _ I _ _ Hc) as [[Hl _]|(pid & Hl & Hb)].
    + rewrite (deliver_open _ _ _ s HandshakeListener) by done. simpl.
      destruct (malformed_handshake wwutil m) eqn:Hm.
      * rewrite handshake_malformed by done.
        eapply step_msg_rejected; eauto.
      * apply malformed_handshake_false in Hm as [n ->].
        destruct (workers st !! string_of_Z n) as [w|] eqn:Hw.
        -- destruct (workerStreams st !! string_of_Z n) as [c'|] eqn:Hs.
           ++ rewrite handshake_invalid_pid by (right; by rewrite Hs).
              eapply step_msg_rejected; eauto.
           ++ rewrite handshake_accepted by done.
              by eapply step_msg_bound.
        -- rewrite handshake_invalid_pid by by left.
           eapply step_msg_rejected; eauto.
    + rewrite (deliver_open _ _ _ s (DispatchListener pid)) by done. simpl.
      pose proof (handleMessage_state st pid m) as E.
      unfold state_of in E. unfold state_of at 1. rewrite E.
      by eapply step_msg_dispatch.
  - unfold child_exit. monad_unfold.
    destruct (objects st !! w) as [o|] eqn:Ho; simpl.
    + by eapply step_exit.
    + by apply step_exit_no_object.
Qed.

(** *** What no step undoes *)

Lemma step_bound_stable st ev st' effs k c :
  step wwutil process_pid st ev st' effs →
  workerStreams st !! k = Some c → workerStreams st' !! k = Some c.
Proof.
  destruct 1; simpl; try done.
  intros Hk. rewrite lookup_insert_ne; [done|]. congruence.
Qed.

Lemma step_registered_stable st ev st' effs k :
  step wwutil process_pid st ev st' effs →
  is_Some (workers st !! k) → is_Some (workers st' !! k).
Proof.
  destruct 1; simpl; try done.
  intros Hk. rewrite lookup_insert. case_decide; [by eexists|done].
Qed.

Lemma step_exited_stable st ev st' effs w o :
  step wwutil process_pid st ev st' effs →
  objects st !! w = Some o → cp_dot_pid o = VNull →
  ∃ o', objects st' !! w = Some o' ∧ cp_dot_pid o' = VNull
        ∧ cp_pid o' = cp_pid o.
Proof.
  destruct 1; simpl; eauto; intros Ho Hn.
  - exists o. split; [|done]. by apply lookup_app_l_Some.
  - rewrite list_lookup_alter. case_decide; [subst|by eauto].
    rewrite Ho. simpl. eauto.
  - rewrite list_lookup_alter. case_decide; [subst|by eauto].
    rewrite Ho. simpl. eauto.
Qed.

(** A property that every step from a state satisfying the invariant
    preserves holds along every run. *)
Lemma run_preserves (P : host → Prop) :
  (∀ st ev st' effs, invariant st → step wwutil process_pid st ev st' effs → P st → P st') →
  ∀ evs st, invariant st → P st → P (fst (run wwutil process_pid evs st)).
Proof.
  intros HP evs. induction evs as [|ev evs IH]; intros st I H; simpl; [done|].
  apply IH; [by apply invariant_exec|].
  eapply HP; [done|by apply exec_step|done].
Qed.

Lemma run_bound_stable evs st k c :
  invariant st →
  workerStreams st !! k = Some c →
  workerStreams (fst (run wwutil process_pid evs st)) !! k = Some c.
Proof.
  intros I. apply (run_preserves (λ st, workerStreams st !! k = Some c)); [|done].
  intros st0 ev st' effs _ Hstep. by apply (step_bound_stable _ _ _ _ _ _ Hstep).
Qed.

Lemma run_registered_stable evs st k :
  invariant st →
  is_Some (workers st !! k) →
  is_Some (workers (fst (run wwutil process_pid evs st)) !! k).
Proof.
  intros I. apply (run_preserves (λ st, is_Some (workers st !! k))); [|done].
  intros st0 ev st' effs _ Hstep. by apply (step_registered_stable _ _ _ _ _ Hstep).
Qed.

Lemma run_exited_stable evs st w :
  invariant st →
  (∃ o, objects st !! w = Some o ∧ cp_dot_pid o = VNull) →
  ∃ o, objects (fst (run wwutil process_pid evs st)) !! w = Some o
       ∧ cp_dot_pid o = VNull.
Proof.
  intros I.
  apply (run_preserves
           (λ st, ∃ o, objects st !! w = Some o ∧ cp_dot_pid o = VNull)); [|done].
  intros st0 ev st' effs _ Hstep (o & Ho & Hn).
  destruct (step_exited_stable _ _ _ _ _ _ Hstep Ho Hn) as (o' & ? & ? & _).
  eauto.
Qed.

(** *** Steady-state dispatch on a bound channel *)

Lemma bound_dispatcher st k c :
  invariant st →
  workerStreams st !! k = Some c →
  ∃ s pid, streams st !! c = Some s ∧ listeners s = [DispatchListener pid]
           ∧ ToString pid = k.
Proof.
  intros I Hk. destruct (inv_bound _ I _ _ Hk) as (s & pid & Hs & Hl & Hp).
  by exists s, pid.
Qed.

Lemma exec_message_bound st k c msg :
  invariant st →
  workerStreams st !! k = Some c →
  ∃ pid, ToString pid = k ∧
         exec wwutil process_pid (Message c msg) st = handleMessage wwutil pid msg st.
Proof.
  intros I Hk. destruct (bound_dispatcher _ _ _ I Hk) as (s & pid & Hs & Hl & Hp).
  exists pid. split; [done|]. cbn [exec].
  by rewrite (deliver_open _ _ _ s (DispatchListener pid)).
Qed.

(** C4. [postMessage] for an identity [n] that has no record in [workers]
    fails: the assertion of line 65 throws to the caller, and neither the
    three maps nor anything else of the state has changed, and nothing was
    sent. *)
Theorem postMessage_unknown_worker st n msg :
  workers st !! string_of_Z n = None →
  let r := postMessage wwutil (VNum n) msg st in
  outcome_of r =
    Throw (AssertionError ("Unable to find worker for PID " +:+ string_of_Z n))
  ∧ state_of r = st
  ∧ registry (state_of r) = registry st
  ∧ effects_of r = [].
Proof.
  intros H r. subst r. by rewrite postMessage_unknown.
Qed.

(** C5 (as amended). [addWorker] never fails: it maps the identity [n] to
    the given Worker object, replacing a record of that identity if there
    is one, and changes nothing else; an identity that was not registered
    has, after it, a record with no bound channel and no pending queue. *)
Theorem addWorker_registers st n w :
  reachable wwutil process_pid st →
  let r := addWorker (VNum n) w st in
  outcome_of r = Ret tt
  ∧ effects_of r = []
  ∧ workers (state_of r) = <[string_of_Z n := w]> (workers st)
  ∧ workerStreams (state_of r) = workerStreams st
  ∧ workerMsgQueue (state_of r) = workerMsgQueue st
  ∧ (workers st !! string_of_Z n = None →
     workers (state_of r) !! string_of_Z n = Some w
     ∧ workerStreams (state_of r) !! string_of_Z n = None
     ∧ workerMsgQueue (state_of r) !! string_of_Z n = None).
Proof.
  intros R r. apply reachable_invariant in R. subst r.
  unfold addWorker, modify, outcome_of, effects_of, state_of. simpl.
  split_and!; try done. intros H. split_and!.
  - by rewrite lookup_insert_eq.
  - apply eq_None_not_Some. intros Hs.
    apply (inv_bound_registered _ R) in Hs. rewrite H in Hs. by destruct Hs.
  - apply eq_None_not_Some. intros Hs.
    apply (inv_queue_registered _ R) in Hs. rewrite H in Hs. by destruct Hs.
Qed.

(** C6 (as amended). An envelope that fails [isValidMessage] on a bound
    channel is logged and ignored: nothing is closed, nothing is thrown,
    and the state, with the binding of the channel, is unchanged. *)
Theorem malformed_frame_logged st k c msg :
  reachable wwutil process_pid st →
  workerStreams st !! k = Some c →
  isValidMessage wwutil msg = false →
  exec wwutil process_pid (Message c msg) st =
    (Ret tt, st, [EDebug "Received invalid message: " msg]).
Proof.
  intros R Hk Hv. apply reachable_invariant in R.
  destruct (exec_message_bound _ _ _ msg R Hk) as (pid & Hp & ->).
  apply handleMessage_invalid; [|done].
  rewrite Hp. by apply (inv_bound_registered _ R).
Qed.

(** C9. A [MSGTYPE_USER] envelope dispatched while the Worker object of
    the identity has no [onmessage] is dropped: no call, no log, no
    exception, and the whole state is unchanged, so the payload is kept
    nowhere; setting [onmessage] afterwards delivers nothing. *)
Theorem user_message_without_callback st k c ww payload :
  reachable wwutil process_pid st →
  workerStreams st !! k = Some c →
  workers st !! k = Some ww →
  objects st !! ww ≫= onmessage = None →
  MSGTYPE_NOOP wwutil ≠ MSGTYPE_USER wwutil →
  isValidMessage wwutil (user_envelope wwutil payload) = true →
  exec wwutil process_pid (Message c (user_envelope wwutil payload)) st = (Ret tt, st, [])
  ∧ ∀ f, effects_of (exec wwutil process_pid (SetOnmessage ww (Some f)) st) = [].
Proof.
  intros R Hk Hw Ho Hne Hv. apply reachable_invariant in R.
  split; [|done].
  destruct (exec_message_bound _ _ _ (user_envelope wwutil payload) R Hk)
    as (pid & Hp & ->).
  subst k. unfold user_envelope.
  rewrite (handleMessage_user _ _ ww) by done. by rewrite Ho.
Qed.

(** *** Handshake *)

Lemma handshake_rejected st c m :
  ¬ well_formed_handshake wwutil st m →
  ∃ text v,
    handshake_listener wwutil c m st =
      (Ret tt, closed_state c st, [EDebug text v; EEnd c]).
Proof.
  intros Hn. destruct (malformed_handshake wwutil m) eqn:Hm.
  - rewrite handshake_malformed by done. eauto.
  - apply malformed_handshake_false in Hm as [n ->].
    destruct (workers st !! string_of_Z n) as [w|] eqn:Hw.
    + destruct (workerStreams st !! string_of_Z n) as [c'|] eqn:Hs.
      * rewrite handshake_invalid_pid by (right; by rewrite Hs). eauto.
      * destruct Hn. exists n. by rewrite Hw.
    + rewrite handshake_invalid_pid by by left. eauto.
Qed.

(** C3. Once a channel is bound to an identity, a handshake that names
    this identity on any connection is rejected, that connection being
    closed and the binding left as it is; and no run of the event loop
    replaces or removes the binding. *)
Theorem binding_is_permanent st k c :
  reachable wwutil process_pid st →
  workerStreams st !! k = Some c →
  (∀ c' n, string_of_Z n = k →
     let r := handshake_listener wwutil c'
                (VArr [VNum (MSGTYPE_HANDSHAKE wwutil); VNum n]) st in
     outcome_of r = Ret tt
     ∧ effects_of r =
         [EDebug "Invalid PID found in HANDSHAKE message." VUndefined; EEnd c']
     ∧ workerStreams (state_of r) = workerStreams st)
  ∧ (∀ evs, workerStreams (fst (run wwutil process_pid evs st)) !! k = Some c).
Proof.
  intros R Hk. apply reachable_invariant in R. split.
  - intros c' n <- r. subst r.
    rewrite handshake_invalid_pid by (right; by rewrite Hk). done.
  - intros evs. by apply run_bound_stable.
Qed.

(** *** The Worker constructor *)

(** C7 (as amended). [new Worker(src)] first spawns the child, which
    registers nothing, and then, in the same call, registers the new Worker
    object under the pid of the child; from the state the constructor
    returns in, the identity stays registered through every run of the
    event loop, and so at every handshake a connection can attempt. *)
Theorem registration_follows_spawn st src pid :
  reachable wwutil process_pid st →
  let launched := Worker_spawn process_pid src pid st in
  let r := Worker process_pid src pid st in
  let self := length (objects st) in
  effects_of launched =
    (if master st then [] else [EListen (SOCK_PATH process_pid)]) ++
    [ESpawn (SOCK_PATH process_pid) src pid]
  ∧ workers (state_of launched) = workers st
  ∧ outcome_of r = Ret self
  ∧ effects_of r = effects_of launched
  ∧ state_of r = set_workers <[string_of_Z pid := self]> (state_of launched)
  ∧ ∀ evs,
      is_Some (workers (fst (run wwutil process_pid evs (state_of r)))
                 !! string_of_Z pid).
Proof.
  intros R launched r self. apply reachable_invariant in R.
  assert (I' : invariant (state_of r)).
  { subst r. rewrite Worker_eq. by apply invariant_Worker. }
  subst launched r self. rewrite Worker_eq, Worker_spawn_eq in *.
  unfold outcome_of, effects_of, state_of in *. simpl in *.
  split_and!; try done.
  - destruct (master st) eqn:Hm; [done|].
    by destruct (inv_master _ R Hm) as (-> & _).
  - intros evs. apply run_registered_stable; [done|]. simpl.
    rewrite lookup_insert_eq. by eexists.
Qed.

(** C10. Once the child of a Worker object has terminated, [postMessage]
    on that object fails at any later time: [cp.pid] is [null], no record
    is registered under the key of [null], the assertion of line 65 throws
    and nothing changes; the record registered under the pid the child had
    is still there. *)
Theorem postMessage_after_exit evs1 w o code evs2 msg :
  let st1 := fst (run wwutil process_pid evs1 initial) in
  objects st1 !! w = Some o →
  let st2 := fst (run wwutil process_pid (ChildExit w code :: evs2) st1) in
  Worker_postMessage wwutil w msg st2 =
    (Throw (AssertionError "Unable to find worker for PID null"), st2, [])
  ∧ ∃ n, cp_pid o = VNum n ∧ is_Some (workers st2 !! string_of_Z n).
Proof.
  intros st1 Ho st2.
  assert (I1 : invariant st1) by apply invariant_run, invariant_initial.
  assert (I2 : invariant st2) by by apply invariant_run.
  split.
  - assert (He : ∃ o2, objects st2 !! w = Some o2 ∧ cp_dot_pid o2 = VNull).
    { subst st2. simpl.
      apply run_exited_stable; [apply (invariant_exec st1 (ChildExit w code) I1)|].
      unfold child_exit. monad_unfold. rewrite Ho. simpl.
      exists (set_exited o). split; [|done].
      by rewrite list_lookup_alter_eq, Ho. }
    destruct He as (o2 & Ho2 & Hn).
    rewrite (Worker_postMessage_eq _ _ o2) by done. rewrite Hn.
    apply postMessage_unknown. simpl.
    apply eq_None_not_Some. intros Hs.
    destruct (inv_keys _ I2 _ Hs) as [n Hk].
    by apply (string_of_Z_not_null n).
  - destruct (inv_objects _ I1 _ _ Ho) as (n & Hn & _ & Hr).
    exists n. split; [done|]. by apply run_registered_stable.
Qed.

(** *** Messages posted before and after the handshake *)

Lemma posted_app k evs1 evs2 st :
  posted wwutil process_pid k (evs1 ++ evs2) st =
    posted wwutil process_pid k evs1 st ++ posted wwutil process_pid k evs2 (fst (run wwutil process_pid evs1 st)).
Proof.
  revert st. induction evs1 as [|ev evs1 IH]; intros st; simpl; [done|].
  by rewrite IH, app_assoc.
Qed.





(** A stream is the channel of one identity at most. *)
Lemma bound_inj st k1 k2 c :
  invariant st →
  workerStreams st !! k1 = Some c → workerStreams st !! k2 = Some c → k1 = k2.
Proof.
  intros I H1 H2.
  destruct (inv_bound _ I _ _ H1) as (s1 & p1 & Hs1 & Hl1 & <-).
  destruct (inv_bound _ I _ _ H2) as (s2 & p2 & Hs2 & Hl2 & <-).
  congruence.
Qed.










(** *** Further properties of the registry *)

(** X1. In every reachable state, only a registered identity has a bound
    channel or a pending queue, and an identity never has both. *)
Theorem registry_well_formed st k :
  reachable wwutil process_pid st →
  (is_Some (workerStreams st !! k) →
   is_Some (workers st !! k) ∧ workerMsgQueue st !! k = None)
  ∧ (is_Some (workerMsgQueue st !! k) →
     is_Some (workers st !! k) ∧ workerStreams st !! k = None).
Proof.
  intros R. apply reachable_invariant in R. split.
  - intros H. split; [by apply (inv_bound_registered _ R)|].
    by apply (inv_queue_unbound _ R).
  - intros H. split; [by apply (inv_queue_registered _ R)|].
    apply eq_None_not_Some. intros Hs.
    rewrite (inv_queue_unbound _ R _ Hs) in H. by destruct H.
Qed.

(** X2. [postMessage] to an identity with a bound channel writes exactly
    one envelope to that channel, [[MSGTYPE_USER, msg]] with the payload as
    given, and changes nothing. *)
Theorem postMessage_to_bound_worker st n c msg :
  reachable wwutil process_pid st →
  workerStreams st !! string_of_Z n = Some c →
  postMessage wwutil (VNum n) msg st =
    (Ret tt, st, [ESend c (VArr [VNum (MSGTYPE_USER wwutil); msg])]).
Proof.
  intros R Hs. apply reachable_invariant in R.
  apply postMessage_bound; [|done].
  apply (inv_bound_registered _ R). by eexists.
Qed.

(** X3. In every reachable state a stream is the channel of at most one
    identity. *)
Theorem channel_of_one_identity st k1 k2 c :
  reachable wwutil process_pid st →
  workerStreams st !! k1 = Some c →
  workerStreams st !! k2 = Some c →
  k1 = k2.
Proof.
  intros R. apply reachable_invariant in R. by apply bound_inj.
Qed.

(** *** What a turn can do to the outside *)

Lemma strict_eq_num_true v c : strict_eq_num v c = true → v = VNum c.
Proof.
  destruct v; simpl; try discriminate.
  intros H. apply bool_decide_eq_true in H. by subst.
Qed.

(** The three ways [handleMessage] ends when it does not throw before:
    silently, with one log, or with one call of [onmessage]. *)
Lemma handleMessage_cases st pid msg :
  effects_of (handleMessage wwutil pid msg st) = []
  ∨ (∃ text, effects_of (handleMessage wwutil pid msg st) = [EDebug text msg])
  ∨ (∃ ww o f arg,
        workers st !! ToString pid = Some ww
        ∧ objects st !! ww = Some o
        ∧ onmessage o = Some f
        ∧ isValidMessage wwutil msg = true
        ∧ js_index msg 0 = Some (VNum (MSGTYPE_USER wwutil))
        ∧ js_index msg 1 = Some arg
        ∧ effects_of (handleMessage wwutil pid msg st) = [ECall f arg]).
Proof.
  unfold handleMessage, call_onmessage, index. monad_unfold.
  destruct (workers st !! ToString pid) as [w|] eqn:Hw; simpl; [|by left].
  destruct (isValidMessage wwutil msg) eqn:Hv; simpl; [|right; left; by eexists].
  destruct (js_index msg 0) as [tag|] eqn:H0; simpl; [|by left].
  destruct (strict_eq_num tag (MSGTYPE_NOOP wwutil)); simpl; [by left|].
  destruct (strict_eq_num tag (MSGTYPE_USER wwutil)) eqn:Ht; simpl;
    [|destruct (js_ToString msg); [right; left; by eexists|by left]].
  apply strict_eq_num_true in Ht as ->.
  rewrite Hw.
  destruct (objects st !! w) as [o|] eqn:Ho; simpl; [|by left].
  destruct (onmessage o) as [f|] eqn:Hf; simpl; [|by left].
  destruct (js_index msg 1) as [arg|] eqn:H1; simpl; [|by left].
  right; right. exists w, o, f, arg. by split_and!.
Qed.

Lemma handleMessage_effects st pid msg e :
  e ∈ effects_of (handleMessage wwutil pid msg st) →
  (∃ text v, e = EDebug text v) ∨ (∃ f arg, e = ECall f arg).
Proof.
  destruct (handleMessage_cases st pid msg)
    as [-> | [[text ->] | (ww & o & f & arg & _ & _ & _ & _ & _ & _ & ->)]].
  - by intros ?%elem_of_nil.
  - intros ->%list_elem_of_singleton. left. eauto.
  - intros ->%list_elem_of_singleton. right. eauto.
Qed.

Lemma elem_of_spawn_effects src pid st e :
  e ∈ spawn_effects process_pid src pid st →
  e = EListen (SOCK_PATH process_pid) ∧ master st = false
  ∨ e = ESpawn (SOCK_PATH process_pid) src pid.
Proof.
  unfold spawn_effects. destruct (master st); simpl.
  - intros ->%list_elem_of_singleton. by right.
  - intros [-> | ->%list_elem_of_singleton]%elem_of_cons; [by left|by right].
Qed.

(** X4. On a bound channel no envelope, whatever it is (a second
    handshake included), changes the state of the master: the turn only
    logs or calls [onmessage]; it sends nothing and closes nothing. *)
Theorem bound_channel_turn_is_passive st k c m :
  reachable wwutil process_pid st →
  workerStreams st !! k = Some c →
  let r := exec wwutil process_pid (Message c m) st in
  state_of r = st
  ∧ ∀ e, e ∈ effects_of r →
         (∃ text v, e = EDebug text v) ∨ (∃ f arg, e = ECall f arg).
Proof.
  intros R Hk r. apply reachable_invariant in R.
  destruct (exec_message_bound _ _ _ m R Hk) as (pid & _ & E).
  subst r. rewrite E. split.
  - apply handleMessage_state.
  - intros e. apply handleMessage_effects.
Qed.

(** X5. A callback is called only in the turn of an envelope received on
    a bound channel, only when that envelope is valid and has type
    [MSGTYPE_USER], only with its payload [m[1]], and it is the [onmessage]
    that the Worker object registered for the identity has at that time. *)
Theorem callback_only_for_user_envelope st ev f arg :
  reachable wwutil process_pid st →
  ECall f arg ∈ effects_of (exec wwutil process_pid ev st) →
  ∃ c m k ww o,
    ev = Message c m
    ∧ workerStreams st !! k = Some c
    ∧ workers st !! k = Some ww
    ∧ objects st !! ww = Some o
    ∧ onmessage o = Some f
    ∧ isValidMessage wwutil m = true
    ∧ js_index m 0 = Some (VNum (MSGTYPE_USER wwutil))
    ∧ js_index m 1 = Some arg.
Proof.
  intros R. apply reachable_invariant in R.
  pose proof (exec_step st ev R) as Hstep. revert Hstep.
  generalize (state_of (exec wwutil process_pid ev st)).
  generalize (effects_of (exec wwutil process_pid ev st)).
  intros effs st' Hstep Hin. destruct Hstep;
    try (by apply elem_of_nil in Hin);
    try (by apply list_elem_of_singleton in Hin).
  - apply elem_of_spawn_effects in Hin as [[? _]|?]; discriminate.
  - apply elem_of_cons in Hin as [?|Hin]; [discriminate|].
    by apply list_elem_of_singleton in Hin.
  - apply list_elem_of_fmap in Hin as (x & ? & _). discriminate.
  - destruct (handleMessage_cases st pid m)
      as [E|[[text E]|(ww & o & f' & arg' & Hw & Ho & Hf & Hv & Ht & Hp & E)]];
      rewrite E in Hin.
    + by apply elem_of_nil in Hin.
    + by apply list_elem_of_singleton in Hin.
    + apply list_elem_of_singleton in Hin. injection Hin as -> ->.
      exists c, m, (ToString pid), ww, o. by split_and!.
Qed.

Lemma step_send_bound st ev st' effs c envelope :
  step wwutil process_pid st ev st' effs →
  ESend c envelope ∈ effs →
  (∃ msg, envelope = user_envelope wwutil msg)
  ∧ ∃ k, workerStreams st' !! k = Some c.
Proof.
  intros Hstep Hin. destruct Hstep;
    try (by apply elem_of_nil in Hin).
  - apply elem_of_spawn_effects in Hin as [[? _]|?]; discriminate.
  - apply list_elem_of_singleton in Hin. injection Hin as -> ->. eauto.
  - apply elem_of_cons in Hin as [?|Hin]; [discriminate|].
    by apply list_elem_of_singleton in Hin.
  - apply list_elem_of_fmap in Hin as (x & Hx & _). injection Hx as -> ->.
    split; [eauto|]. exists (string_of_Z n). simpl. by rewrite lookup_insert_eq.
  - apply handleMessage_effects in Hin as [(? & ? & ?)|(? & ? & ?)]; discriminate.
  - by apply list_elem_of_singleton in Hin.
Qed.

Lemma step_bound_not_closed st ev st' effs k c :
  invariant st →
  step wwutil process_pid st ev st' effs →
  workerStreams st !! k = Some c →
  EEnd c ∉ effs.
Proof.
  intros I Hstep Hk Hin. destruct Hstep;
    try (by apply elem_of_nil in Hin).
  - apply elem_of_spawn_effects in Hin as [[? _]|?]; discriminate.
  - by apply list_elem_of_singleton in Hin.
  - apply elem_of_cons in Hin as [?|Hin]; [discriminate|].
    apply list_elem_of_singleton in Hin. injection Hin as <-.
    destruct (bound_dispatcher _ _ _ I Hk) as (s' & pid & Hs' & Hl' & _).
    congruence.
  - apply list_elem_of_fmap in Hin as (x & ? & _). discriminate.
  - apply handleMessage_effects in Hin as [(? & ? & ?)|(? & ? & ?)]; discriminate.
  - by apply list_elem_of_singleton in Hin.
Qed.

(** X6. Whatever the run, the master only writes [MSGTYPE_USER] envelopes,
    and only to streams that are the bound channel of an identity: no
    handshake or no-op is ever sent, and nothing is written to a
    connection that has not completed its handshake. *)
Theorem every_send_is_a_user_envelope evs st c envelope :
  reachable wwutil process_pid st →
  ESend c envelope ∈ snd (run wwutil process_pid evs st) →
  (∃ msg, envelope = user_envelope wwutil msg)
  ∧ ∃ k, workerStreams (fst (run wwutil process_pid evs st)) !! k = Some c.
Proof.
  intros R. apply reachable_invariant in R. revert st R.
  induction evs as [|ev evs IH]; intros st I Hin; simpl in *.
  { by apply elem_of_nil in Hin. }
  pose proof (invariant_exec st ev I) as I1.
  apply elem_of_app in Hin as [Hin|Hin]; [|by apply IH].
  destruct (step_send_bound _ _ _ _ _ _ (exec_step st ev I) Hin)
    as [Hm [k Hk]].
  split; [done|]. exists k. by apply run_bound_stable.
Qed.

(** X7. The master never closes a bound channel: along every run from a
    state in which a stream is bound, no [s.end()] is made on it, and it
    keeps the dispatcher of its identity as its only listener. *)
Theorem bound_channel_never_closed evs st k c :
  reachable wwutil process_pid st →
  workerStreams st !! k = Some c →
  (EEnd c ∉ snd (run wwutil process_pid evs st))
  ∧ ∃ s pid,
      streams (fst (run wwutil process_pid evs st)) !! c = Some s
      ∧ listeners s = [DispatchListener pid]
      ∧ ToString pid = k.
Proof.
  intros R Hk. apply reachable_invariant in R. split.
  - revert st R Hk. induction evs as [|ev evs IH]; intros st I Hk; simpl.
    { apply not_elem_of_nil. }
    pose proof (exec_step st ev I) as Hstep.
    apply not_elem_of_app. split.
    + by apply (step_bound_not_closed st ev _ _ k c I Hstep Hk).
    + apply IH; [by apply invariant_exec|].
      by apply (step_bound_stable _ _ _ _ _ _ Hstep).
  - pose proof (invariant_run evs st R) as I'.
    pose proof (run_bound_stable evs st k c R Hk) as Hk'.
    destruct (bound_dispatcher _ _ _ I' Hk') as (s & pid & ? & ? & ?).
    eauto.
Qed.

(** X8. [postMessage] on a Worker object whose child has not terminated
    never throws: the message is written to the channel of its pid when
    there is one, and appended to the pending queue of its pid otherwise. *)
Theorem live_handle_postMessage st w o msg :
  reachable wwutil process_pid st →
  objects st !! w = Some o →
  cp_dot_pid o ≠ VNull →
  let k := ToString (cp_pid o) in
  let r := Worker_postMessage wwutil w msg st in
  outcome_of r = Ret tt
  ∧ match workerStreams st !! k with
    | Some c =>
        state_of r = st ∧ effects_of r = [ESend c (user_envelope wwutil msg)]
    | None =>
        state_of r =
          set_workerMsgQueue
            <[k := default [] (workerMsgQueue st !! k) ++ [msg]]> st
        ∧ effects_of r = []
    end.
Proof.
  intros R Ho Hlive k r. apply reachable_invariant in R.
  destruct (inv_objects _ R _ _ Ho) as (n & Hn & [Hd|Hd] & Hr); [|done].
  subst k r. rewrite (Worker_postMessage_eq _ _ o) by done.
  rewrite Hn, Hd. simpl.
  destruct (workerStreams st !! string_of_Z n) as [c|] eqn:Hs.
  - by rewrite (postMessage_bound _ _ _ c).
  - by rewrite postMessage_queued.
Qed.

(** X9. A pid that comes back while the channel of its former owner is
    still bound: [new Worker] replaces the record and keeps the old
    channel, so the messages of the new Worker object are written to the
    old channel at once, and the handshake of the new child is rejected. *)
Theorem stale_channel_after_pid_reuse st n c src msg :
  reachable wwutil process_pid st →
  workerStreams st !! string_of_Z n = Some c →
  let self := length (objects st) in
  let st' := state_of (Worker process_pid src n st) in
  workers st' !! string_of_Z n = Some self
  ∧ workerStreams st' !! string_of_Z n = Some c
  ∧ Worker_postMessage wwutil self msg st' =
      (Ret tt, st', [ESend c (user_envelope wwutil msg)])
  ∧ ∀ c',
      handshake_listener wwutil c'
        (VArr [VNum (MSGTYPE_HANDSHAKE wwutil); VNum n]) st' =
        (Ret tt, closed_state c' st',
         [EDebug "Invalid PID found in HANDSHAKE message." VUndefined; EEnd c']).
Proof.
  intros R Hk self st'. apply reachable_invariant in R.
  assert (E : st' = registered_state src n st).
  { subst st'. rewrite Worker_eq. unfold state_of. simpl.
    by rewrite spawned_state_eq. }
  assert (Hw : workers st' !! string_of_Z n = Some self).
  { rewrite E. simpl. by rewrite lookup_insert_eq. }
  assert (Hs : workerStreams st' !! string_of_Z n = Some c) by by rewrite E.
  split_and!; try done.
  - rewrite (Worker_postMessage_eq _ _ (mkWorkerObj None (VNum n) (VNum n) src)).
    + simpl. apply postMessage_bound; [by eexists|done].
    + rewrite E. simpl. rewrite lookup_app_r by done.
      by rewrite Nat.sub_diag.
  - intros c'. apply handshake_invalid_pid. right. by eexists.
Qed.

(** *** The singleton master and its socket *)

Lemma string_length_app (a b : string) :
  String.length (a +:+ b) = (String.length a + String.length b)%nat.
Proof. induction a as [|x a IH]; simpl; [done|]. by rewrite IH. Qed.

Lemma string_app_inj_r (a b s : string) : a +:+ s = b +:+ s → a = b.
Proof.
  revert b. induction a as [|x a IH]; intros [|y b] H.
  - done.
  - apply (f_equal String.length) in H.
    rewrite !string_length_app in H. simpl in H. lia.
  - apply (f_equal String.length) in H.
    rewrite !string_length_app in H. simpl in H. lia.
  - cbn in H. injection H as -> H. f_equal. by apply IH.
Qed.

Lemma exec_before_master ev :
  (∀ src pid, ev ≠ NewWorker src pid) →
  state_of (exec wwutil process_pid ev initial) = initial
  ∧ effects_of (exec wwutil process_pid ev initial) = [].
Proof.
  intros Hne. destruct ev as [src pid|w f|w msg| |c m|w code]; try done.
  by destruct (Hne src pid).
Qed.

Lemma step_with_master st ev st' effs :
  step wwutil process_pid st ev st' effs →
  master st = true →
  master st' = true
  ∧ ∀ e, e ∈ effs →
         (∀ path, e ≠ EListen path)
         ∧ ∀ sock src pid, e = ESpawn sock src pid → sock = SOCK_PATH process_pid.
Proof.
  intros Hstep Hm.
  destruct Hstep; (split; [done|]); intros e Hin;
    try (by apply elem_of_nil in Hin).
  - apply elem_of_spawn_effects in Hin as [[_ ?]| ->]; [congruence|].
    split; [done|]. by intros ??? [= <- _ _].
  - apply list_elem_of_singleton in Hin as ->. done.
  - apply elem_of_cons in Hin as [->|Hin]; [done|].
    apply list_elem_of_singleton in Hin as ->. done.
  - apply list_elem_of_fmap in Hin as (x & -> & _). done.
  - apply handleMessage_effects in Hin as [(? & ? & ->)|(? & ? & ->)]; done.
  - apply list_elem_of_singleton in Hin as ->. done.
Qed.

Lemma run_with_master evs st :
  invariant st →
  master st = true →
  ∀ e, e ∈ snd (run wwutil process_pid evs st) →
       (∀ path, e ≠ EListen path)
       ∧ ∀ sock src pid, e = ESpawn sock src pid → sock = SOCK_PATH process_pid.
Proof.
  revert st. induction evs as [|ev evs IH]; intros st I Hm e Hin; simpl in *.
  { by apply elem_of_nil in Hin. }
  destruct (step_with_master _ _ _ _ (exec_step st ev I) Hm) as [Hm' He].
  apply elem_of_app in Hin as [Hin|Hin]; [by apply He|].
  apply (IH (state_of (exec wwutil process_pid ev st))); try done.
  by apply invariant_exec.
Qed.

(** X10. The master is a singleton created by the first [new Worker]:
    until then a run does nothing to the outside; the first [new Worker]
    makes the master listen on [SOCK_PATH] and then spawns the child with
    that path; after that the master never listens again, and every child
    is given the same path. *)
Theorem master_created_once evs :
  let effs := snd (run wwutil process_pid evs initial) in
  (Forall (λ ev, ∀ src pid, ev ≠ NewWorker src pid) evs ∧ effs = [])
  ∨ ∃ src pid rest,
      effs = EListen (SOCK_PATH process_pid)
             :: ESpawn (SOCK_PATH process_pid) src pid :: rest
      ∧ ∀ e, e ∈ rest →
             (∀ path, e ≠ EListen path)
             ∧ ∀ sock src' pid', e = ESpawn sock src' pid' →
                                 sock = SOCK_PATH process_pid.
Proof.
  induction evs as [|ev evs IH]; simpl.
  { left. by split. }
  destruct ev as [src pid|w f|w msg| |c m|w code].
  1: {
    right. exists src, pid.
    exists (snd (run wwutil process_pid evs
                   (state_of (exec wwutil process_pid (NewWorker src pid) initial)))).
    split; [done|].
    apply run_with_master; [|done].
    apply invariant_exec, invariant_initial. }
  all: match goal with
       | |- context [exec wwutil process_pid ?ev initial] =>
           destruct (exec_before_master ev) as [-> ->]; [done|]
       end;
    simpl in *; destruct IH as [[HF ->]|IH]; [left|by right];
    split; [|done]; by apply Forall_cons.
Qed.

(** X11. Hosts with different pids use different sockets. *)
Theorem SOCK_PATH_distinct (p q : Z) :
  p ≠ q → SOCK_PATH p ≠ SOCK_PATH q.
Proof.
  intros Hne H. apply Hne. unfold SOCK_PATH in H.
  apply String.app_inj in H. apply string_app_inj_r in H.
  by apply string_of_Z_inj.
Qed.

(** *** One identity at a time *)

(** X12. [postMessage] for one identity changes neither [workers] nor
    [workerStreams], leaves the pending queue of every other identity as
    it is, and writes nothing to the channel of another identity. *)
Theorem postMessage_leaves_others st n m msg :
  reachable wwutil process_pid st →
  n ≠ m →
  let r := postMessage wwutil (VNum n) msg st in
  workers (state_of r) = workers st
  ∧ workerStreams (state_of r) = workerStreams st
  ∧ workerMsgQueue (state_of r) !! string_of_Z m = workerMsgQueue st !! string_of_Z m
  ∧ ∀ c, workerStreams st !! string_of_Z m = Some c →
         sends_on c (effects_of r) = [].
Proof.
  intros R Hne r. apply reachable_invariant in R. subst r.
  assert (Hk : string_of_Z n ≠ string_of_Z m)
    by (intros E; by apply string_of_Z_inj in E).
  destruct (workers st !! string_of_Z n) as [w|] eqn:Hw.
  - destruct (workerStreams st !! string_of_Z n) as [c0|] eqn:Hs.
    + rewrite (postMessage_bound _ _ _ c0) by done.
      split_and!; try done. intros c Hc. unfold effects_of, sends_on. simpl.
      rewrite bool_decide_eq_false_2; [done|]. intros ->.
      apply Hk. by apply (bound_inj st _ _ c).
    + rewrite postMessage_queued by done.
      split_and!; try done. unfold state_of. simpl.
      by rewrite lookup_insert_ne.
  - by rewrite postMessage_unknown.
Qed.

(** X13. The handshake of one identity, accepted or rejected, changes
    neither [workers] nor the Worker objects, leaves the channel and the
    pending queue of every other identity as they are, and touches no
    connection but its own. *)
Theorem handshake_leaves_others st c n m :
  n ≠ m →
  let r := handshake_listener wwutil c
             (VArr [VNum (MSGTYPE_HANDSHAKE wwutil); VNum n]) st in
  workers (state_of r) = workers st
  ∧ objects (state_of r) = objects st
  ∧ workerStreams (state_of r) !! string_of_Z m = workerStreams st !! string_of_Z m
  ∧ workerMsgQueue (state_of r) !! string_of_Z m = workerMsgQueue st !! string_of_Z m
  ∧ ∀ c', c' ≠ c → streams (state_of r) !! c' = streams st !! c'.
Proof.
  intros Hne r. subst r.
  assert (Hk : string_of_Z n ≠ string_of_Z m)
    by (intros E; by apply string_of_Z_inj in E).
  destruct (workers st !! string_of_Z n) as [w|] eqn:Hw.
  - destruct (workerStreams st !! string_of_Z n) as [c0|] eqn:Hs.
    + rewrite handshake_invalid_pid by (right; by rewrite Hs).
      unfold state_of. simpl. split_and!; try done.
      intros c' Hc'. by rewrite list_lookup_alter_ne.
    + rewrite handshake_accepted by done.
      unfold state_of. simpl. split_and!; try done.
      * by rewrite lookup_insert_ne.
      * by rewrite lookup_delete_ne.
      * intros c' Hc'. by rewrite list_lookup_alter_ne.
  - rewrite handshake_invalid_pid by by left.
    unfold state_of. simpl. split_and!; try done.
    intros c' Hc'. by rewrite list_lookup_alter_ne.
Qed.

(** *** How the operations compose *)

(** X14. [onmessage] is read when an envelope is dispatched: after
    [w.onmessage = f] the next [MSGTYPE_USER] envelope on the channel of
    the identity calls [f] with the payload, and after [onmessage] has been
    unset it calls nothing. *)
Theorem onmessage_read_at_dispatch st k c ww f payload :
  reachable wwutil process_pid st →
  workerStreams st !! k = Some c →
  workers st !! k = Some ww →
  is_Some (objects st !! ww) →
  MSGTYPE_NOOP wwutil ≠ MSGTYPE_USER wwutil →
  isValidMessage wwutil (user_envelope wwutil payload) = true →
  snd (run wwutil process_pid
         [SetOnmessage ww (Some f); Message c (user_envelope wwutil payload)] st)
    = [ECall f payload]
  ∧ snd (run wwutil process_pid
           [SetOnmessage ww None; Message c (user_envelope wwutil payload)] st)
    = [].
Proof.
  intros R Hk Hw [o Ho] Hne Hv. apply reachable_invariant in R.
  assert (H : ∀ g,
    snd (run wwutil process_pid
           [SetOnmessage ww g; Message c (user_envelope wwutil payload)] st)
    = match g with Some f => [ECall f payload] | None => [] end).
  { intros g.
    pose proof (invariant_exec st (SetOnmessage ww g) R) as I1.
    cbn [run snd fst].
    set (st1 := state_of (exec wwutil process_pid (SetOnmessage ww g) st)) in *.
    assert (Hk1 : workerStreams st1 !! k = Some c) by done.
    assert (Hw1 : workers st1 !! k = Some ww) by done.
    assert (Ho1 : objects st1 !! ww ≫= onmessage = g).
    { subst st1. unfold state_of. simpl.
      rewrite list_lookup_alter_eq, Ho. done. }
    destruct (exec_message_bound _ _ _ (user_envelope wwutil payload) I1 Hk1)
      as (pid & Hp & ->).
    subst k. unfold user_envelope.
    rewrite (handleMessage_user _ _ ww) by done.
    rewrite Ho1. unfold effects_of. simpl. by rewrite app_nil_r. }
  split; [apply (H (Some f))|apply (H None)].
Qed.

(** X15. When a child terminates, the master logs the pid saved in
    [cp_pid], whatever [cp.pid] has become, and nothing else happens: the
    record, the channel and the pending queue of the identity stay, and no
    connection is closed. *)
Theorem exit_keeps_the_record st w o code :
  reachable wwutil process_pid st →
  objects st !! w = Some o →
  let r := exec wwutil process_pid (ChildExit w code) st in
  ∃ n,
    cp_pid o = VNum n
    ∧ outcome_of r = Ret tt
    ∧ effects_of r =
        [EDebug ("Process " +:+ string_of_Z n +:+ " for worker '" +:+
                 worker_src o +:+ "' exited with status ") code]
    ∧ registry (state_of r) = registry st
    ∧ streams (state_of r) = streams st
    ∧ is_Some (workers (state_of r) !! string_of_Z n).
Proof.
  intros R Ho r. apply reachable_invariant in R.
  destruct (inv_objects _ R _ _ Ho) as (n & Hn & _ & Hr).
  exists n. subst r. simpl. unfold child_exit. monad_unfold.
  rewrite Ho. simpl. rewrite Hn. done.
Qed.

(** X16. A well-formed handshake followed by a [MSGTYPE_USER] envelope on
    the same connection: the first turn binds the connection and flushes
    the pending queue, the second is dispatched to the [onmessage] of the
    Worker object of the identity. *)
Theorem handshake_then_dispatch st c n ww o f payload :
  reachable wwutil process_pid st →
  streams st !! c = Some (mkStream [HandshakeListener] false) →
  workers st !! string_of_Z n = Some ww →
  workerStreams st !! string_of_Z n = None →
  objects st !! ww = Some o →
  onmessage o = Some f →
  MSGTYPE_NOOP wwutil ≠ MSGTYPE_USER wwutil →
  isValidMessage wwutil (user_envelope wwutil payload) = true →
  run wwutil process_pid
    [Message c (VArr [VNum (MSGTYPE_HANDSHAKE wwutil); VNum n]);
     Message c (user_envelope wwutil payload)] st
  = (bound_state (VNum n) c st,
     map (λ m, ESend c (user_envelope wwutil m))
         (default [] (workerMsgQueue st !! string_of_Z n))
     ++ [ECall f payload]).
Proof.
  intros R Hc Hw Hs Ho Hf Hne Hv.
  cbn [run fst snd exec].
  rewrite (deliver_open _ _ _ _ HandshakeListener Hc) by done. cbn [run_listener].
  rewrite handshake_accepted by done. unfold state_of, effects_of. cbn [fst snd].
  assert (Hc' : streams (bound_state (VNum n) c st) !! c
                = Some (mkStream [DispatchListener (VNum n)] false)).
  { simpl. by rewrite list_lookup_alter_eq, Hc. }
  rewrite (deliver_open _ _ _ _ (DispatchListener (VNum n)) Hc') by done.
  cbn [run_listener].
  assert (E : handleMessage wwutil (VNum n) (user_envelope wwutil payload)
                (bound_state (VNum n) c st)
              = (Ret tt, bound_state (VNum n) c st, [ECall f payload])).
  { unfold user_envelope. rewrite (handleMessage_user _ _ ww) by done.
    simpl. rewrite Ho. simpl. by rewrite Hf. }
  rewrite E. cbn [fst snd]. by rewrite app_nil_r.
Qed.

(** *** Dispatch and rejection, turn by turn *)

(** X17. Steady-state dispatch of a valid envelope [[tag, payload]] on a
    bound channel, by type. The state is unchanged in every case.
    [MSGTYPE_USER] calls the [onmessage] of the Worker object registered
    for the identity with the payload (when one is set) and
    [MSGTYPE_NOOP] does nothing, both without a throw. Any other tag is
    logged, without a throw, when the envelope converts to a string; when
    it does not, the concatenation of line 106 throws a [TypeError] and
    nothing is logged. *)
Theorem dispatch_by_type_loggable st k c ww tag payload :
  reachable wwutil process_pid st →
  workerStreams st !! k = Some c →
  workers st !! k = Some ww →
  MSGTYPE_NOOP wwutil ≠ MSGTYPE_USER wwutil →
  let msg := VArr [tag; payload] in
  isValidMessage wwutil msg = true →
  let r := exec wwutil process_pid (Message c msg) st in
  state_of r = st
  ∧ (tag = VNum (MSGTYPE_USER wwutil) →
     outcome_of r = Ret tt
     ∧ effects_of r = match objects st !! ww ≫= onmessage with
                      | Some f => [ECall f payload]
                      | None => []
                      end)
  ∧ (tag = VNum (MSGTYPE_NOOP wwutil) →
     outcome_of r = Ret tt ∧ effects_of r = [])
  ∧ (tag ≠ VNum (MSGTYPE_NOOP wwutil) → tag ≠ VNum (MSGTYPE_USER wwutil) →
     match js_ToString msg with
     | Some _ =>
         outcome_of r = Ret tt
         ∧ effects_of r = [EDebug "Received unexpected message: " msg]
     | None =>
         outcome_of r = Throw TypeError ∧ effects_of r = []
     end).
Proof.
  intros R Hk Hw Hne msg Hv r. apply reachable_invariant in R.
  destruct (exec_message_bound _ _ _ msg R Hk) as (pid & Hp & E).
  subst r. rewrite E. subst k.
  split_and!.
  - apply handleMessage_state.
  - intros ->. subst msg. by rewrite (handleMessage_user _ _ ww).
  - intros ->. subst msg. by rewrite handleMessage_noop.
  - intros H1 H2. subst msg. rewrite handleMessage_other by done.
    by destruct (js_ToString (VArr [tag; payload])).
Qed.

(** X18. Any envelope that is not a well-formed handshake of a registered
    identity with no channel, received on a connection whose listener is
    the handshake listener, is rejected: one log, [s.end()] on that
    connection, no throw; the three maps, the Worker objects and every
    other connection are unchanged, and the connection keeps the handshake
    listener. *)
Theorem bad_handshake_turn st c s m :
  streams st !! c = Some s →
  listeners s = [HandshakeListener] →
  ¬ well_formed_handshake wwutil st m →
  let r := exec wwutil process_pid (Message c m) st in
  outcome_of r = Ret tt
  ∧ (∃ text v, effects_of r = [EDebug text v; EEnd c])
  ∧ registry (state_of r) = registry st
  ∧ objects (state_of r) = objects st
  ∧ streams (state_of r) !! c = Some (mkStream [HandshakeListener] true)
  ∧ ∀ c', c' ≠ c → streams (state_of r) !! c' = streams st !! c'.
Proof.
  intros Hc Hl Hn r. subst r. cbn [exec].
  rewrite (deliver_open _ _ _ _ HandshakeListener Hc) by done. cbn [run_listener].
  destruct (handshake_rejected st c m Hn) as (text & v & ->).
  unfold outcome_of, effects_of, state_of. simpl.
  split_and!; try done.
  - eauto.
  - by rewrite list_lookup_alter_eq, Hc, <- Hl.
  - intros c' Hc'. by rewrite list_lookup_alter_ne.
Qed.

End Properties.

(** ** Concrete runs *)

(** ** The theorems at concrete runs *)


Lemma binding_is_permanent_witness :
  (∀ c' n, string_of_Z n = "4321" →
     let r := handshake_listener wwutil_spec c' (VArr [VNum 1; VNum n]) demo_bound in
     outcome_of r = Ret tt
     ∧ effects_of r =
         [EDebug "Invalid PID found in HANDSHAKE message." VUndefined; EEnd c']
     ∧ workerStreams (state_of r) = workerStreams demo_bound)
  ∧ (∀ evs, workerStreams (fst (run wwutil_spec 99 evs demo_bound)) !! "4321"
            = Some 0%nat).
Proof.
  apply (binding_is_permanent wwutil_spec 99 demo_bound "4321" 0%nat).
  - exists [NewWorker "w.js" 4321; Connection;
            Message 0%nat (VArr [VNum 1; VNum 4321])]. reflexivity.
  - vm_compute. reflexivity.
Defined.

Lemma postMessage_unknown_worker_witness :
  let r := postMessage wwutil_spec (VNum 7) (VStr "hello") demo_registered in
  outcome_of r = Throw (AssertionError "Unable to find worker for PID 7")
  ∧ state_of r = demo_registered
  ∧ registry (state_of r) = registry demo_registered
  ∧ effects_of r = [].
Proof.
  apply (postMessage_unknown_worker wwutil_spec demo_registered 7 (VStr "hello")).
  vm_compute. reflexivity.
Defined.

(** C5, counterexample: 4321 is registered with the Worker object 0;
    registering 4321 again with the object 1 does not fail and replaces the
    record. *)
Lemma addWorker_replaces_registered :
  workers demo_registered !! "4321" = Some 0%nat
  ∧ outcome_of (addWorker (VNum 4321) 1%nat demo_registered) = Ret tt
  ∧ workers (state_of (addWorker (VNum 4321) 1%nat demo_registered)) !! "4321"
    = Some 1%nat.
Proof. vm_compute. done. Qed.

Lemma addWorker_registers_witness :
  let r := addWorker (VNum 1234) 1%nat demo_registered in
  outcome_of r = Ret tt
  ∧ effects_of r = []
  ∧ workers (state_of r) = <[string_of_Z 1234 := 1%nat]> (workers demo_registered)
  ∧ workerStreams (state_of r) = workerStreams demo_registered
  ∧ workerMsgQueue (state_of r) = workerMsgQueue demo_registered
  ∧ (workers demo_registered !! string_of_Z 1234 = None →
     workers (state_of r) !! string_of_Z 1234 = Some 1%nat
     ∧ workerStreams (state_of r) !! string_of_Z 1234 = None
     ∧ workerMsgQueue (state_of r) !! string_of_Z 1234 = None).
Proof.
  apply (addWorker_registers wwutil_spec 99 demo_registered 1234 1%nat).
  exists [NewWorker "w.js" 4321]. reflexivity.
Defined.

(** C6, counterexample: on the bound channel 0 the envelope ["garbage"]
    fails validation; the master logs it, makes no [s.end()], and the
    stream stays open with its dispatcher. *)
Lemma malformed_frame_keeps_connection :
  let r := exec wwutil_spec 99 (Message 0%nat (VStr "garbage")) demo_bound in
  workerStreams demo_bound !! "4321" = Some 0%nat
  ∧ isValidMessage wwutil_spec (VStr "garbage") = false
  ∧ effects_of r = [EDebug "Received invalid message: " (VStr "garbage")]
  ∧ streams (state_of r) !! 0%nat
    = Some (mkStream [DispatchListener (VNum 4321)] false).
Proof. vm_compute. done. Qed.

Lemma malformed_frame_logged_witness :
  exec wwutil_spec 99 (Message 0%nat (VStr "garbage")) demo_bound =
    (Ret tt, demo_bound, [EDebug "Received invalid message: " (VStr "garbage")]).
Proof.
  apply (malformed_frame_logged wwutil_spec 99 demo_bound "4321" 0%nat (VStr "garbage")).
  - exists [NewWorker "w.js" 4321; Connection;
            Message 0%nat (VArr [VNum 1; VNum 4321])]. reflexivity.
  - vm_compute. reflexivity.
  - vm_compute. reflexivity.
Defined.

(** C7, counterexample: in the first [new Worker("w.js")] of a host, when
    [child_process.spawn] has returned pid 4321 the master and the child
    exist and 4321 is not registered; it is registered when the constructor
    returns. *)
Lemma spawn_precedes_registration :
  let launched := Worker_spawn 99 "w.js" 4321 initial in
  effects_of launched =
    [EListen "/tmp/node-webworker-99.sock";
     ESpawn "/tmp/node-webworker-99.sock" "w.js" 4321]
  ∧ workers (state_of launched) !! "4321" = None
  ∧ workers (state_of (Worker 99 "w.js" 4321 initial)) !! "4321" = Some 0%nat.
Proof. vm_compute. done. Qed.

Lemma registration_follows_spawn_witness :
  let launched := Worker_spawn 99 "w.js" 4321 initial in
  let r := Worker 99 "w.js" 4321 initial in
  let self := length (objects initial) in
  effects_of launched =
    (if master initial then [] else [EListen (SOCK_PATH 99)]) ++
    [ESpawn (SOCK_PATH 99) "w.js" 4321]
  ∧ workers (state_of launched) = workers initial
  ∧ outcome_of r = Ret self
  ∧ effects_of r = effects_of launched
  ∧ state_of r = set_workers <[string_of_Z 4321 := self]> (state_of launched)
  ∧ ∀ evs,
      is_Some (workers (fst (run wwutil_spec 99 evs (state_of r)))
                 !! string_of_Z 4321).
Proof.
  apply (registration_follows_spawn wwutil_spec 99 initial "w.js" 4321).
  exists []. reflexivity.
Defined.

Lemma user_message_without_callback_witness :
  exec wwutil_spec 99 (Message 0%nat (VArr [VNum 2; VStr "hi"])) demo_bound
    = (Ret tt, demo_bound, [])
  ∧ ∀ f, effects_of (exec wwutil_spec 99 (SetOnmessage 0%nat (Some f)) demo_bound) = [].
Proof.
  apply (user_message_without_callback wwutil_spec 99 demo_bound "4321" 0%nat 0%nat
           (VStr "hi")).
  - exists [NewWorker "w.js" 4321; Connection;
            Message 0%nat (VArr [VNum 1; VNum 4321])]. reflexivity.
  - vm_compute. reflexivity.
  - vm_compute. reflexivity.
  - vm_compute. reflexivity.
  - simpl. lia.
  - vm_compute. reflexivity.
Defined.

Lemma postMessage_after_exit_witness :
  let st2 := fst (run wwutil_spec 99 [ChildExit 0%nat (VNum 0)] demo_registered) in
  Worker_postMessage wwutil_spec 0%nat (VStr "late") st2 =
    (Throw (AssertionError "Unable to find worker for PID null"), st2, [])
  ∧ ∃ n, VNum 4321 = VNum n ∧ is_Some (workers st2 !! string_of_Z n).
Proof.
  apply (postMessage_after_exit wwutil_spec 99 [NewWorker "w.js" 4321] 0%nat
           (mkWorkerObj None (VNum 4321) (VNum 4321) "w.js") (VNum 0) []
           (VStr "late")).
  vm_compute. reflexivity.
Defined.

Lemma registry_well_formed_witness :
  (is_Some (workerStreams demo_bound !! "4321") →
   is_Some (workers demo_bound !! "4321")
   ∧ workerMsgQueue demo_bound !! "4321" = None)
  ∧ (is_Some (workerMsgQueue demo_bound !! "4321") →
     is_Some (workers demo_bound !! "4321")
     ∧ workerStreams demo_bound !! "4321" = None).
Proof.
  apply (registry_well_formed wwutil_spec 99 demo_bound "4321").
  exists [NewWorker "w.js" 4321; Connection;
          Message 0%nat (VArr [VNum 1; VNum 4321])]. reflexivity.
Defined.

Lemma postMessage_to_bound_worker_witness :
  postMessage wwutil_spec (VNum 4321) (VStr "hi") demo_bound =
    (Ret tt, demo_bound, [ESend 0%nat (VArr [VNum 2; VStr "hi"])]).
Proof.
  apply (postMessage_to_bound_worker wwutil_spec 99 demo_bound 4321 0%nat (VStr "hi")).
  - exists [NewWorker "w.js" 4321; Connection;
            Message 0%nat (VArr [VNum 1; VNum 4321])]. reflexivity.
  - vm_compute. reflexivity.
Defined.

Lemma channel_of_one_identity_witness :
  string_of_Z 4321 = "4321".
Proof.
  apply (channel_of_one_identity wwutil_spec 99 demo_bound (string_of_Z 4321) "4321" 0%nat).
  - exists [NewWorker "w.js" 4321; Connection;
            Message 0%nat (VArr [VNum 1; VNum 4321])]. reflexivity.
  - vm_compute. reflexivity.
  - vm_compute. reflexivity.
Defined.

Lemma bound_channel_turn_is_passive_witness :
  let r := exec wwutil_spec 99 (Message 0%nat (VArr [VNum 1; VNum 4321])) demo_bound in
  state_of r = demo_bound
  ∧ ∀ e, e ∈ effects_of r →
         (∃ text v, e = EDebug text v) ∨ (∃ f arg, e = ECall f arg).
Proof.
  apply (bound_channel_turn_is_passive wwutil_spec 99 demo_bound "4321" 0%nat
           (VArr [VNum 1; VNum 4321])).
  - exists [NewWorker "w.js" 4321; Connection;
            Message 0%nat (VArr [VNum 1; VNum 4321])]. reflexivity.
  - vm_compute. reflexivity.
Defined.

Lemma callback_only_for_user_envelope_witness :
  ∃ c m k ww o,
    Message 0%nat (VArr [VNum 2; VStr "hi"]) = Message c m
    ∧ workerStreams demo_listening !! k = Some c
    ∧ workers demo_listening !! k = Some ww
    ∧ objects demo_listening !! ww = Some o
    ∧ onmessage o = Some 7%nat
    ∧ isValidMessage wwutil_spec m = true
    ∧ js_index m 0 = Some (VNum (MSGTYPE_USER wwutil_spec))
    ∧ js_index m 1 = Some (VStr "hi").
Proof.
  apply (callback_only_for_user_envelope wwutil_spec 99 demo_listening
           (Message 0%nat (VArr [VNum 2; VStr "hi"])) 7%nat (VStr "hi")).
  - exists [NewWorker "w.js" 4321; SetOnmessage 0%nat (Some 7%nat); Connection;
            Message 0%nat (VArr [VNum 1; VNum 4321])]. reflexivity.
  - vm_compute. apply list_elem_of_singleton. reflexivity.
Defined.

Lemma every_send_is_a_user_envelope_witness :
  (∃ msg, VArr [VNum 2; VStr "x"] = user_envelope wwutil_spec msg)
  ∧ ∃ k, workerStreams
           (fst (run wwutil_spec 99
                   [PostMessage 0%nat (VStr "x"); Connection;
                    Message 0%nat (VArr [VNum 1; VNum 4321])] demo_registered))
           !! k = Some 0%nat.
Proof.
  apply (every_send_is_a_user_envelope wwutil_spec 99
           [PostMessage 0%nat (VStr "x"); Connection;
            Message 0%nat (VArr [VNum 1; VNum 4321])]
           demo_registered 0%nat (VArr [VNum 2; VStr "x"])).
  - exists [NewWorker "w.js" 4321]. reflexivity.
  - vm_compute. apply list_elem_of_singleton. reflexivity.
Defined.

Lemma bound_channel_never_closed_witness :
  let evs := [Message 0%nat (VStr "garbage"); ChildExit 0%nat (VNum 0);
              Message 0%nat (VArr [VNum 0; VNum 99])] in
  (EEnd 0%nat ∉ snd (run wwutil_spec 99 evs demo_bound))
  ∧ ∃ s pid,
      streams (fst (run wwutil_spec 99 evs demo_bound)) !! 0%nat = Some s
      ∧ listeners s = [DispatchListener pid]
      ∧ ToString pid = "4321".
Proof.
  apply (bound_channel_never_closed wwutil_spec 99
           [Message 0%nat (VStr "garbage"); ChildExit 0%nat (VNum 0);
            Message 0%nat (VArr [VNum 0; VNum 99])]
           demo_bound "4321" 0%nat).
  - exists [NewWorker "w.js" 4321; Connection;
            Message 0%nat (VArr [VNum 1; VNum 4321])]. reflexivity.
  - vm_compute. reflexivity.
Defined.

Lemma live_handle_postMessage_witness :
  let r := Worker_postMessage wwutil_spec 0%nat (VStr "x") demo_registered in
  outcome_of r = Ret tt
  ∧ match workerStreams demo_registered !! ToString (VNum 4321) with
    | Some c =>
        state_of r = demo_registered
        ∧ effects_of r = [ESend c (user_envelope wwutil_spec (VStr "x"))]
    | None =>
        state_of r =
          set_workerMsgQueue
            <[ToString (VNum 4321) :=
                default [] (workerMsgQueue demo_registered !! ToString (VNum 4321))
                ++ [VStr "x"]]> demo_registered
        ∧ effects_of r = []
    end.
Proof.
  apply (live_handle_postMessage wwutil_spec 99 demo_registered 0%nat
           (mkWorkerObj None (VNum 4321) (VNum 4321) "w.js") (VStr "x")).
  - exists [NewWorker "w.js" 4321]. reflexivity.
  - vm_compute. reflexivity.
  - simpl. discriminate.
Defined.

Lemma stale_channel_after_pid_reuse_witness :
  let self := length (objects demo_bound) in
  let st' := state_of (Worker 99 "v.js" 4321 demo_bound) in
  workers st' !! string_of_Z 4321 = Some self
  ∧ workerStreams st' !! string_of_Z 4321 = Some 0%nat
  ∧ Worker_postMessage wwutil_spec self (VStr "x") st' =
      (Ret tt, st', [ESend 0%nat (user_envelope wwutil_spec (VStr "x"))])
  ∧ ∀ c',
      handshake_listener wwutil_spec c'
        (VArr [VNum (MSGTYPE_HANDSHAKE wwutil_spec); VNum 4321]) st' =
        (Ret tt, closed_state c' st',
         [EDebug "Invalid PID found in HANDSHAKE message." VUndefined; EEnd c']).
Proof.
  apply (stale_channel_after_pid_reuse wwutil_spec 99 demo_bound 4321 0%nat
           "v.js" (VStr "x")).
  - exists [NewWorker "w.js" 4321; Connection;
            Message 0%nat (VArr [VNum 1; VNum 4321])]. reflexivity.
  - vm_compute. reflexivity.
Defined.

Lemma SOCK_PATH_distinct_witness :
  SOCK_PATH 98 = "/tmp/node-webworker-98.sock" ∧ SOCK_PATH 98 ≠ SOCK_PATH 99.
Proof.
  split; [reflexivity|]. apply (SOCK_PATH_distinct 98 99). lia.
Defined.

Lemma postMessage_leaves_others_witness :
  let rA := postMessage wwutil_spec (VNum 4321) (VStr "x") demo_three in
  let rB := postMessage wwutil_spec (VNum 5) (VStr "x") demo_three_bound in
  (workerMsgQueue (state_of rA) !! string_of_Z 4321 = Some [VStr "a"; VStr "x"]
   ∧ workerMsgQueue demo_three !! string_of_Z 6 = Some [VStr "c"]
   ∧ workerMsgQueue (state_of rA) !! string_of_Z 6
     = workerMsgQueue demo_three !! string_of_Z 6)
  ∧ (effects_of rB = [ESend 1%nat (VArr [VNum 2; VStr "x"])]
     ∧ workerStreams demo_three_bound !! string_of_Z 4321 = Some 0%nat
     ∧ sends_on 0%nat (effects_of rB) = []).
Proof.
  intros rA rB.
  destruct (postMessage_leaves_others wwutil_spec 99 demo_three 4321 6 (VStr "x"))
    as (_ & _ & HA & _).
  { exists [NewWorker "w.js" 4321; NewWorker "v.js" 5; NewWorker "u.js" 6;
            PostMessage 0%nat (VStr "a"); PostMessage 2%nat (VStr "c");
            Connection; Connection;
            Message 1%nat (VArr [VNum 1; VNum 5])]. reflexivity. }
  { lia. }
  destruct (postMessage_leaves_others wwutil_spec 99 demo_three_bound 5 4321 (VStr "x"))
    as (_ & _ & _ & HB).
  { exists [NewWorker "w.js" 4321; NewWorker "v.js" 5; NewWorker "u.js" 6;
            PostMessage 0%nat (VStr "a"); PostMessage 2%nat (VStr "c");
            Connection; Connection;
            Message 1%nat (VArr [VNum 1; VNum 5]);
            Message 0%nat (VArr [VNum 1; VNum 4321])]. reflexivity. }
  { lia. }
  split.
  - split; [vm_compute; reflexivity|]. split; [vm_compute; reflexivity|]. exact HA.
  - split; [vm_compute; reflexivity|]. split; [vm_compute; reflexivity|].
    apply HB. vm_compute. reflexivity.
Defined.

Lemma handshake_leaves_others_witness :
  let r := handshake_listener wwutil_spec 0%nat
             (VArr [VNum (MSGTYPE_HANDSHAKE wwutil_spec); VNum 4321]) demo_three in
  (workerStreams (state_of r) !! string_of_Z 4321 = Some 0%nat
   ∧ effects_of r = [ESend 0%nat (VArr [VNum 2; VStr "a"])])
  ∧ (workerStreams demo_three !! string_of_Z 5 = Some 1%nat
     ∧ workerStreams (state_of r) !! string_of_Z 5
       = workerStreams demo_three !! string_of_Z 5
     ∧ streams demo_three !! 1%nat = Some (mkStream [DispatchListener (VNum 5)] false)
     ∧ streams (state_of r) !! 1%nat = streams demo_three !! 1%nat)
  ∧ (workerMsgQueue demo_three !! string_of_Z 6 = Some [VStr "c"]
     ∧ workerMsgQueue (state_of r) !! string_of_Z 6
       = workerMsgQueue demo_three !! string_of_Z 6).
Proof.
  intros r.
  destruct (handshake_leaves_others wwutil_spec demo_three 0%nat 4321 5)
    as (_ & _ & H5 & _ & Hc); [lia|].
  destruct (handshake_leaves_others wwutil_spec demo_three 0%nat 4321 6)
    as (_ & _ & _ & H6 & _); [lia|].
  split; [split; vm_compute; reflexivity|]. split.
  - split; [vm_compute; reflexivity|]. split; [exact H5|].
    split; [vm_compute; reflexivity|]. apply Hc. lia.
  - split; [vm_compute; reflexivity|]. exact H6.
Defined.

Lemma onmessage_read_at_dispatch_witness :
  snd (run wwutil_spec 99
         [SetOnmessage 0%nat (Some 7%nat);
          Message 0%nat (user_envelope wwutil_spec (VStr "hi"))] demo_bound)
    = [ECall 7%nat (VStr "hi")]
  ∧ snd (run wwutil_spec 99
           [SetOnmessage 0%nat None;
            Message 0%nat (user_envelope wwutil_spec (VStr "hi"))] demo_bound)
    = [].
Proof.
  apply (onmessage_read_at_dispatch wwutil_spec 99 demo_bound "4321" 0%nat 0%nat
           7%nat (VStr "hi")).
  - exists [NewWorker "w.js" 4321; Connection;
            Message 0%nat (VArr [VNum 1; VNum 4321])]. reflexivity.
  - vm_compute. reflexivity.
  - vm_compute. reflexivity.
  - vm_compute. eexists. reflexivity.
  - simpl. lia.
  - vm_compute. reflexivity.
Defined.

Lemma exit_keeps_the_record_witness :
  let r := exec wwutil_spec 99 (ChildExit 0%nat (VNum 0)) demo_bound in
  ∃ n,
    VNum 4321 = VNum n
    ∧ outcome_of r = Ret tt
    ∧ effects_of r =
        [EDebug ("Process " +:+ string_of_Z n +:+ " for worker '" +:+
                 "w.js" +:+ "' exited with status ") (VNum 0)]
    ∧ registry (state_of r) = registry demo_bound
    ∧ streams (state_of r) = streams demo_bound
    ∧ is_Some (workers (state_of r) !! string_of_Z n).
Proof.
  apply (exit_keeps_the_record wwutil_spec 99 demo_bound 0%nat
           (mkWorkerObj None (VNum 4321) (VNum 4321) "w.js") (VNum 0)).
  - exists [NewWorker "w.js" 4321; Connection;
            Message 0%nat (VArr [VNum 1; VNum 4321])]. reflexivity.
  - vm_compute. reflexivity.
Defined.

Lemma handshake_then_dispatch_witness :
  run wwutil_spec 99
    [Message 0%nat (VArr [VNum 1; VNum 4321]);
     Message 0%nat (VArr [VNum 2; VStr "hi"])] demo_awaiting
  = (bound_state (VNum 4321) 0%nat demo_awaiting,
     map (λ m, ESend 0%nat (user_envelope wwutil_spec m))
         (default [] (workerMsgQueue demo_awaiting !! string_of_Z 4321))
     ++ [ECall 7%nat (VStr "hi")]).
Proof.
  apply (handshake_then_dispatch wwutil_spec 99 demo_awaiting 0%nat 4321 0%nat
           (mkWorkerObj (Some 7%nat) (VNum 4321) (VNum 4321) "w.js") 7%nat (VStr "hi")).
  - exists [NewWorker "w.js" 4321; SetOnmessage 0%nat (Some 7%nat);
            PostMessage 0%nat (VStr "early"); Connection]. reflexivity.
  - vm_compute. reflexivity.
  - vm_compute. reflexivity.
  - vm_compute. reflexivity.
  - vm_compute. reflexivity.
  - reflexivity.
  - simpl. lia.
  - vm_compute. reflexivity.
Defined.

Lemma dispatch_by_type_loggable_witness :
  let logged := VArr [VNum 5; VStr "p"] in
  let thrown := VArr [VNum 5; VObj [("toString", VNum 1)]] in
  let r1 := exec wwutil_spec 99 (Message 0%nat logged) demo_bound in
  let r2 := exec wwutil_spec 99 (Message 0%nat thrown) demo_bound in
  (js_ToString logged = Some "5,p"
   ∧ state_of r1 = demo_bound
   ∧ outcome_of r1 = Ret tt
   ∧ effects_of r1 = [EDebug "Received unexpected message: " logged])
  ∧ (js_ToString thrown = None
     ∧ state_of r2 = demo_bound
     ∧ outcome_of r2 = Throw TypeError
     ∧ effects_of r2 = []).
Proof.
  intros logged thrown r1 r2.
  destruct (dispatch_by_type_loggable wwutil_spec 99 demo_bound "4321" 0%nat 0%nat
              (VNum 5) (VStr "p")) as (H1 & _ & _ & H4).
  { exists [NewWorker "w.js" 4321; Connection;
            Message 0%nat (VArr [VNum 1; VNum 4321])]. reflexivity. }
  { vm_compute. reflexivity. }
  { vm_compute. reflexivity. }
  { simpl. lia. }
  { vm_compute. reflexivity. }
  destruct (dispatch_by_type_loggable wwutil_spec 99 demo_bound "4321" 0%nat 0%nat
              (VNum 5) (VObj [("toString", VNum 1)])) as (H1' & _ & _ & H4').
  { exists [NewWorker "w.js" 4321; Connection;
            Message 0%nat (VArr [VNum 1; VNum 4321])]. reflexivity. }
  { vm_compute. reflexivity. }
  { vm_compute. reflexivity. }
  { simpl. lia. }
  { vm_compute. reflexivity. }
  split.
  - split; [vm_compute; reflexivity|]. split; [exact H1|].
    apply H4; simpl; intros E; discriminate E.
  - split; [vm_compute; reflexivity|]. split; [exact H1'|].
    apply H4'; simpl; intros E; discriminate E.
Defined.

Lemma bad_handshake_turn_witness :
  let r := exec wwutil_spec 99 (Message 0%nat (VArr [VNum 0; VNum 99])) demo_three in
  outcome_of r = Ret tt
  ∧ (∃ text v, effects_of r = [EDebug text v; EEnd 0%nat])
  ∧ registry (state_of r) = registry demo_three
  ∧ objects (state_of r) = objects demo_three
  ∧ streams (state_of r) !! 0%nat = Some (mkStream [HandshakeListener] true)
  ∧ ∀ c', c' ≠ 0%nat → streams (state_of r) !! c' = streams demo_three !! c'.
Proof.
  apply (bad_handshake_turn wwutil_spec 99 demo_three 0%nat
           (mkStream [HandshakeListener] false) (VArr [VNum 0; VNum 99])).
  - vm_compute. reflexivity.
  - reflexivity.
  - intros (n & E & _). simpl in E. discriminate E.
Defined.

(** C2, the failing input: 4321 is registered and has no channel; a new
    connection sends [[0, 99]] and then [[MSGTYPE_HANDSHAKE, 4321]]. The
    first envelope is logged and answered with [s.end()]; the handshake
    listener is still installed, so the second binds the ended connection
    to 4321 and installs the dispatcher, and a third, [MSGTYPE_USER],
    envelope is dispatched to the callback. *)
Lemma rejected_connection_still_binds :
  let st0 := fst (run wwutil_spec 99
                    [NewWorker "w.js" 4321; SetOnmessage 0%nat (Some 7%nat);
                     Connection] initial) in
  let first := exec wwutil_spec 99 (Message 0%nat (VArr [VNum 0; VNum 99])) st0 in
  let second := exec wwutil_spec 99 (Message 0%nat (VArr [VNum 1; VNum 4321]))
                  (state_of first) in
  let third := exec wwutil_spec 99 (Message 0%nat (VArr [VNum 2; VStr "hi"]))
                 (state_of second) in
  streams st0 !! 0%nat = Some (mkStream [HandshakeListener] false)
  ∧ effects_of first =
      [EDebug "Received malformed message: " (VArr [VNum 0; VNum 99]); EEnd 0%nat]
  ∧ streams (state_of first) !! 0%nat = Some (mkStream [HandshakeListener] true)
  ∧ workerStreams (state_of second) !! "4321" = Some 0%nat
  ∧ streams (state_of second) !! 0%nat
    = Some (mkStream [DispatchListener (VNum 4321)] true)
  ∧ effects_of third = [ECall 7%nat (VStr "hi")].
Proof. vm_compute. done. Qed.

(** C8, the failing input: on the bound channel of 4321 the valid
    envelope [[5, {toString: 1}]] has a type that is neither
    [MSGTYPE_NOOP] nor [MSGTYPE_USER]; building the log of line 106 throws
    a [TypeError] out of [handleMessage], and nothing is logged. *)
Lemma unexpected_tag_log_throws :
  let msg := VArr [VNum 5; VObj [("toString", VNum 1)]] in
  workerStreams demo_bound !! "4321" = Some 0%nat
  ∧ isValidMessage wwutil_spec msg = true
  ∧ js_ToString msg = None
  ∧ handleMessage wwutil_spec (VNum 4321) msg demo_bound
    = (Throw TypeError, demo_bound, [])
  ∧ exec wwutil_spec 99 (Message 0%nat msg) demo_bound
    = (Throw TypeError, demo_bound, []).
Proof. vm_compute. done. Qed.
